(** * SandyPPLX: the chat-over-search client

    A shallow embedding of the client logic of the repository:
    - [parseMessage] and the streaming effect of [Chat.tsx], which split the
      text of an assistant message into its thinking part and its answer;
    - the clean-up of the reformulated query in [handleSubmit];
    - [createResultStream] and [performSearch] of the [useSearch] hook;
    - the state updates that [handleSubmit] makes around the search.

    JavaScript strings are sequences of UTF-16 code units; they are modelled
    as lists of numbers, one per code unit, so that every statement below
    ranges over all strings and not only over ASCII ones.

    The state of the component is passed explicitly: a function that calls
    the setters of React state returns the state after the calls.  What the
    routes and [useChat] answer is given to the functions as an argument, and
    a computation that may throw returns a [Completion]. *)

From Stdlib Require Import List NArith QArith Bool String Ascii Lia.
From Stdlib Require Import Permutation Sorted Lqa PeanoNat DecimalString DecimalNat.
Import ListNotations.

(** ** Strings *)

Definition jsstring := list N.

(** The code units of a literal of the source. *)
Definition js (s : string) : jsstring :=
  map N_of_ascii (list_ascii_of_string s).

Section CodeUnits.
Local Open Scope N_scope.

(** White space and line terminators of ECMAScript: what [trim] removes and
    what the class [\s] of a regular expression matches. *)
Definition isWhiteSpace (c : N) : bool :=
  (c =? 9) || (c =? 10) || (c =? 11) || (c =? 12) || (c =? 13) || (c =? 32)
  || (c =? 160) || (c =? 5760) || ((8192 <=? c) && (c <=? 8202))
  || (c =? 8232) || (c =? 8233) || (c =? 8239) || (c =? 8287)
  || (c =? 12288) || (c =? 65279).

Definition quote : N := 34.
Definition newline : N := 10.
Definition space : N := 32.
Definition lessThan : N := 60.
Definition greaterThan : N := 62.

(** The class of the clean-up expression: a double quote or [\s]. *)
Definition isQuoteOrSpace (c : N) : bool := (c =? quote) || isWhiteSpace c.

End CodeUnits.

(** [String.prototype.startsWith], also the test of a literal at the current
    position of a regular expression. *)
Fixpoint startsWith (p s : jsstring) : bool :=
  match p, s with
  | [], _ => true
  | _ :: _, [] => false
  | a :: p', b :: s' => N.eqb a b && startsWith p' s'
  end.

(** The first occurrence of [p] in [s], as the text before it and the text
    after it ([indexOf], read as a split). *)
Fixpoint splitAtFirst (p s : jsstring) : option (jsstring * jsstring) :=
  if startsWith p s then Some ([], skipn (List.length p) s)
  else match s with
       | [] => None
       | c :: s' =>
           match splitAtFirst p s' with
           | Some (b, a) => Some (c :: b, a)
           | None => None
           end
       end.

(** [String.prototype.includes]. *)
Definition includes (s p : jsstring) : bool :=
  match splitAtFirst p s with Some _ => true | None => false end.

(** [s.replace(p, r)] for a string pattern [p] and a replacement without
    dollar patterns: only the first occurrence is replaced. *)
Definition replaceFirst (s p r : jsstring) : jsstring :=
  match splitAtFirst p s with
  | Some (b, a) => b ++ r ++ a
  | None => s
  end.

Fixpoint dropWhile (f : N -> bool) (s : jsstring) : jsstring :=
  match s with
  | [] => []
  | c :: s' => if f c then dropWhile f s' else s
  end.

Definition dropWhileEnd (f : N -> bool) (s : jsstring) : jsstring :=
  rev (dropWhile f (rev s)).

(** [String.prototype.trim]. *)
Definition trim (s : jsstring) : jsstring :=
  dropWhileEnd isWhiteSpace (dropWhile isWhiteSpace s).

(** In JavaScript a string is truthy when it is not empty. *)
Definition truthy (s : jsstring) : bool :=
  match s with [] => false | _ :: _ => true end.

(** ** The thinking delimiters (Chat.tsx, lines 19-30) *)

Definition openTag : jsstring := Eval cbv in js "<think>".
Definition closeTag : jsstring := Eval cbv in js "</think>".

(** The result of matching [thinkRegex]: the text before the match, the text
    of the capture group, and the text after the match. *)
Record ThinkMatch := {
  textBefore : jsstring;
  captured : jsstring;
  textAfter : jsstring
}.

(** [content.match(/<think>([^]*?)<\/think>/)].  The expression has no flags:
    the engine tries the start positions from left to right; at a position
    where [<think>] is read, the lazy [[^]*?] takes as few code units (of any
    kind, line terminators included) as possible, so the match closes at the
    first [</think>] that follows; when none follows, the engine moves on to
    the next start position. *)
Fixpoint thinkRegex_exec (s : jsstring) : option ThinkMatch :=
  match
    (if startsWith openTag s
     then splitAtFirst closeTag (skipn (List.length openTag) s)
     else None)
  with
  | Some (inner, rest) =>
      Some {| textBefore := []; captured := inner; textAfter := rest |}
  | None =>
      match s with
      | [] => None
      | c :: s' =>
          match thinkRegex_exec s' with
          | Some m =>
              Some {| textBefore := c :: textBefore m;
                      captured := captured m;
                      textAfter := textAfter m |}
          | None => None
          end
      end
  end.

(** [content.replace(thinkRegex, r)]: the expression is not global, so only
    the first match is replaced. *)
Definition replaceThinkRegex (s r : jsstring) : jsstring :=
  match thinkRegex_exec s with
  | Some m => textBefore m ++ r ++ textAfter m
  | None => s
  end.

(** What [parseMessage] returns: [{thinking, content}] or [{content}]. *)
Record ParsedMessage := {
  parsedThinking : option jsstring;
  parsedContent : jsstring
}.

Definition parseMessage (content : jsstring) : ParsedMessage :=
  match thinkRegex_exec content with
  | Some thinkMatch =>
      {| parsedThinking := Some (trim (captured thinkMatch));
         parsedContent := trim (replaceThinkRegex content []) |}
  | None =>
      {| parsedThinking := None; parsedContent := trim content |}
  end.

(** ** Data of the session *)

(** A search result (useSearch, lines 3-9).  Scores arrive in a JSON body,
    so they are finite numbers and never NaN; on such numbers the sign of the
    difference [b.score - a.score] is the sign of the exact difference, and a
    score is modelled by the rational number it denotes. *)
Module SearchResult.
Record t := {
  title : jsstring;
  url : jsstring;
  content : jsstring;
  score : Q;
  published_date : option jsstring
}.
End SearchResult.

Inductive Role := user | assistant | system.

Module Message.
Record t := { role : Role; content : jsstring }.
End Message.

(** [StreamingState] (Chat.tsx, lines 12-17). *)
Record StreamingState := {
  thinking : jsstring;
  content : jsstring;
  isThinking : bool;
  sources : list SearchResult.t
}.

(** The state of the [Chat] component that the modelled code reads and
    writes: the streaming state, the [thinkingStartTime] reference, and the
    three state variables of the [useSearch] hook. *)
Record SearchHook := {
  isSearching : bool;
  searchResults : list SearchResult.t;
  searchError : option jsstring
}.

Record Chat := {
  input : jsstring;
  messages : list Message.t;
  streamingState : StreamingState;
  thinkingStartTime : option N;
  hook : SearchHook
}.

Definition setStreamingState (f : StreamingState -> StreamingState) (c : Chat)
  : Chat :=
  {| input := input c; messages := messages c;
     streamingState := f (streamingState c);
     thinkingStartTime := thinkingStartTime c; hook := hook c |}.

Definition setThinkingStartTime (t : option N) (c : Chat) : Chat :=
  {| input := input c; messages := messages c;
     streamingState := streamingState c;
     thinkingStartTime := t; hook := hook c |}.

Definition setHook (h : SearchHook) (c : Chat) : Chat :=
  {| input := input c; messages := messages c;
     streamingState := streamingState c;
     thinkingStartTime := thinkingStartTime c; hook := h |}.

Definition setInput (i : jsstring) (c : Chat) : Chat :=
  {| input := i; messages := messages c;
     streamingState := streamingState c;
     thinkingStartTime := thinkingStartTime c; hook := hook c |}.

Definition setMessages (ms : list Message.t) (c : Chat) : Chat :=
  {| input := input c; messages := ms;
     streamingState := streamingState c;
     thinkingStartTime := thinkingStartTime c; hook := hook c |}.

(** ** The streaming effect (Chat.tsx, lines 167-207) *)

Fixpoint lastOf {A : Type} (l : list A) : option A :=
  match l with
  | [] => None
  | [x] => Some x
  | _ :: l' => lastOf l'
  end.

(** [!thinkingStartTime.current]: the reference is empty, or holds zero. *)
Definition notStarted (t : option N) : bool :=
  match t with
  | None => true
  | Some n => N.eqb n 0
  end.

(** The four branches of the effect, as updates of the previous state. *)
Definition showMatch (m : ThinkMatch) (content0 : jsstring)
  (prev : StreamingState) : StreamingState :=
  {| thinking := trim (captured m);
     content := trim (replaceThinkRegex content0 []);
     isThinking := false;
     sources := sources prev |}.

Definition showOpenThinking (content0 : jsstring) (prev : StreamingState)
  : StreamingState :=
  {| thinking := trim (replaceFirst content0 openTag []);
     content := [];
     isThinking := true;
     sources := sources prev |}.

Definition showAsThinking (content0 : jsstring) (prev : StreamingState)
  : StreamingState :=
  {| thinking := trim content0;
     content := content prev;
     isThinking := isThinking prev;
     sources := sources prev |}.

Definition showAsContent (content0 : jsstring) (prev : StreamingState)
  : StreamingState :=
  {| thinking := thinking prev;
     content := trim content0;
     isThinking := isThinking prev;
     sources := sources prev |}.

(** The effect runs when [messages] has changed; [now] is what [Date.now()]
    returns.  The value of [streamingState.isThinking] that the effect reads
    is the one of the render that scheduled it, taken here to be the current
    state. *)
Definition streamingEffect (now : N) (c : Chat) : Chat :=
  match lastOf (messages c) with
  | None => c
  | Some lastMessage =>
      match Message.role lastMessage with
      | assistant =>
          let content0 := Message.content lastMessage in
          let thinkMatch := thinkRegex_exec content0 in
          let c1 :=
            if includes content0 openTag && notStarted (thinkingStartTime c)
            then setThinkingStartTime (Some now) c
            else c in
          match thinkMatch with
          | Some m =>
              setThinkingStartTime None
                (setStreamingState (showMatch m content0) c1)
          | None =>
              if includes content0 openTag
              then setStreamingState (showOpenThinking content0) c1
              else if isThinking (streamingState c)
              then setStreamingState (showAsThinking content0) c1
              else setStreamingState (showAsContent content0) c1
          end
      | _ => c
      end
  end.

(** A chunk of the answer arrives: [useChat] puts the text accumulated so
    far in the assistant message that ends [messages] (appending that message
    when the last one is still the user's), and the effect runs. *)
Definition withAssistantText (accumulated : jsstring) (ms : list Message.t)
  : list Message.t :=
  let m := {| Message.role := assistant; Message.content := accumulated |} in
  match lastOf ms with
  | Some l =>
      match Message.role l with
      | assistant => removelast ms ++ [m]
      | _ => ms ++ [m]
      end
  | None => ms ++ [m]
  end.

Definition chunkArrived (now : N) (accumulated : jsstring) (c : Chat) : Chat :=
  streamingEffect now
    (setMessages (withAssistantText accumulated (messages c)) c).

(** ** Cleaning the reformulated query (Chat.tsx, lines 113-137) *)

(** The text that follows the first [c] of [s]. *)
Fixpoint afterFirst (c : N) (s : jsstring) {struct s} : jsstring :=
  match s with
  | [] => s
  | x :: s' => if N.eqb x c then s' else afterFirst c s'
  end.

(** [.replace(/<[^>]*>/g, '')].  From left to right: at a [<] that some [>]
    follows, the greedy [[^>]*] runs up to the first such [>] and the match is
    removed, the scan going on after it; a [<] that no [>] follows is kept. *)
Fixpoint removeTags (s : jsstring) {struct s} : jsstring :=
  match s with
  | [] => []
  | c :: s' =>
      if N.eqb c lessThan && existsb (N.eqb greaterThan) s'
      then removeTags (afterFirst greaterThan s')
      else c :: removeTags s'
  end.

(** The second replacement, with the two alternatives of its expression:
    anchored at the start, the longest run of quotes and white space; anchored
    at the end (there is no multiline flag), the run of quotes and white space
    that ends the text.  Both are removed. *)
Definition removeOuterQuotes (s : jsstring) : jsstring :=
  dropWhileEnd isQuoteOrSpace (dropWhile isQuoteOrSpace s).

(** [.replace(/\n/g, ' ')]. *)
Definition newlinesToSpaces (s : jsstring) : jsstring :=
  map (fun c => if N.eqb c newline then space else c) s.

Definition cleanQuery (reformulatedQuery : jsstring) : jsstring :=
  trim (newlinesToSpaces (removeOuterQuotes (removeTags reformulatedQuery))).

(** ** Completions *)

(** What a [catch] clause receives: an [Error] with its message, or a value
    that is not an [Error]. *)
Inductive Thrown :=
| ErrorObject (message : jsstring)
| OtherValue.

Inductive Completion (A : Type) :=
| Normal (a : A)
| Throw (e : Thrown).
Arguments Normal {A} a.
Arguments Throw {A} e.

(** The body of a response read chunk by chunk; a read may reject. *)
Inductive BodyStream :=
| Done
| Chunk (text : jsstring) (rest : BodyStream)
| ReadFails (e : Thrown).

(** The loop of lines 118-124. *)
Fixpoint readAll (reformulatedQuery : jsstring) (b : BodyStream)
  : Completion jsstring :=
  match b with
  | Done => Normal reformulatedQuery
  | Chunk text rest => readAll (reformulatedQuery ++ text) rest
  | ReadFails e => Throw e
  end.

Record ChatResponse := {
  chatOk : bool;
  chatBody : option BodyStream
}.

Definition reformulationSystemPrompt : jsstring := Eval cbv in
  js "You are a query reformulation assistant. Your only job is to take a follow-up question and the conversation context, then output a single search-optimized query. Output ONLY the reformulated query, no other text or formatting.".

Definition reformulationRequest (ms : list Message.t) (currentInput : jsstring)
  : list Message.t :=
  [ {| Message.role := system; Message.content := reformulationSystemPrompt |} ]
  ++ map (fun m =>
            match Message.role m with
            | user => {| Message.role := user;
                         Message.content := Message.content m |}
            | _ => {| Message.role := assistant;
                      Message.content := Message.content m |}
            end) (removelast ms)
  ++ [ {| Message.role := user;
          Message.content :=
            js "Given this context, reformulate this question into a single, clear search query: "
            ++ currentInput |} ].

(** Lines 92-137: the query that goes to the search. *)
Definition selectSearchQuery
  (fetchChat : list Message.t -> Completion ChatResponse)
  (ms : list Message.t) (currentInput : jsstring) : Completion jsstring :=
  if Nat.ltb 1 (List.length ms) then
    match fetchChat (reformulationRequest ms currentInput) with
    | Throw e => Throw e
    | Normal reformulationResponse =>
        if chatOk reformulationResponse then
          match
            match chatBody reformulationResponse with
            | Some reader => readAll [] reader
            | None => Normal []
            end
          with
          | Throw e => Throw e
          | Normal reformulatedQuery =>
              if truthy (trim reformulatedQuery)
              then Normal (cleanQuery reformulatedQuery)
              else Normal currentInput
          end
        else Normal currentInput
    end
  else Normal currentInput.

(** ** The search hook (useSearch) *)

Section ArraySort.
Variable A : Type.
Variable comparefn : A -> A -> Q.

(** [Array.prototype.sort] with a comparison function.  ECMAScript requires
    the sort to be stable; with a consistent comparison function that fixes
    the result, which is computed here by insertion: [x], which stood before
    every element of [l], goes behind the elements that must precede it
    (those [y] with [comparefn x y > 0]) and before the first other one. *)
Fixpoint insertSorted (x : A) (l : list A) : list A :=
  match l with
  | [] => [x]
  | y :: l' =>
      if Qle_bool (comparefn x y) 0 then x :: l else y :: insertSorted x l'
  end.

Definition arraySort (l : list A) : list A :=
  fold_right insertSorted [] l.

End ArraySort.
Arguments insertSorted {A} comparefn x l.
Arguments arraySort {A} comparefn l.

(** What the generator does when it is pulled: it yields a result, or it
    waits for a number of milliseconds. *)
Inductive StreamEvent :=
| Yield (r : SearchResult.t)
| Delay (ms : N).

Definition byScoreDescending (a b : SearchResult.t) : Q :=
  SearchResult.score b - SearchResult.score a.

(** [createResultStream] (lines 12-21). *)
Definition createResultStream (results : list SearchResult.t)
  : list StreamEvent :=
  let sortedResults := arraySort byScoreDescending results in
  flat_map (fun result => [Yield result; Delay 150]) sortedResults.

(** The sequence that a consumer of the stream receives. *)
Fixpoint produced (events : list StreamEvent) : list SearchResult.t :=
  match events with
  | [] => []
  | Yield r :: rest => r :: produced rest
  | Delay _ :: rest => produced rest
  end.

(** The members of a body that the hook reads.  [None] stands for a member
    that is missing or null. *)
Record ResponseBody := {
  results : option (list SearchResult.t);
  details : option jsstring
}.

(** A response of the search route.  [json] is what reading the body as an
    object gives: it throws when the body is not JSON, and also when the JSON
    value is null, since reading a member of null throws a TypeError. *)
Record Response := {
  ok : bool;
  json : Completion ResponseBody
}.

Definition setIsSearching (b : bool) (h : SearchHook) : SearchHook :=
  {| isSearching := b; searchResults := searchResults h;
     searchError := searchError h |}.

Definition setSearchResults (l : list SearchResult.t) (h : SearchHook)
  : SearchHook :=
  {| isSearching := isSearching h; searchResults := l;
     searchError := searchError h |}.

Definition setSearchError (e : option jsstring) (h : SearchHook) : SearchHook :=
  {| isSearching := isSearching h; searchResults := searchResults h;
     searchError := e |}.

(** [x || d] for an optional string [x]. *)
Definition orElse (x : option jsstring) (d : jsstring) : jsstring :=
  match x with
  | Some s => if truthy s then s else d
  | None => d
  end.

(** [x || []] for an optional array [x]. *)
Definition orEmpty {A : Type} (x : option (list A)) : list A :=
  match x with
  | Some l => l
  | None => []
  end.

Definition searchRequestFailed : jsstring := Eval cbv in
  js "Search request failed".
Definition failedToPerformSearch : jsstring := Eval cbv in
  js "Failed to perform search".

Section PerformSearch.
Variable fetchSearch : jsstring -> Completion Response.

(** The [try] block of [performSearch] (lines 33-49). *)
Definition trySearch (query : jsstring) (h : SearchHook)
  : SearchHook * Completion (list StreamEvent) :=
  match fetchSearch query with
  | Throw e => (h, Throw e)
  | Normal response =>
      if negb (ok response) then
        match json response with
        | Throw e => (h, Throw e)
        | Normal error =>
            (h, Throw (ErrorObject (orElse (details error) searchRequestFailed)))
        end
      else
        match json response with
        | Throw e => (h, Throw e)
        | Normal data =>
            (setSearchResults (orEmpty (results data)) h,
             Normal (createResultStream (orEmpty (results data))))
        end
  end.

(** The [catch] clause (lines 50-54). *)
Definition catchSearch (error : Thrown) (h : SearchHook)
  : SearchHook * Completion (list StreamEvent) :=
  let message :=
    match error with
    | ErrorObject m => m
    | OtherValue => failedToPerformSearch
    end in
  (setSearchResults [] (setSearchError (Some message) h),
   Normal (createResultStream [])).

(** [performSearch] (lines 28-58): the new state of the hook and what the
    call completes with. *)
Definition performSearch (query : jsstring) (h : SearchHook)
  : SearchHook * Completion (list StreamEvent) :=
  let h0 := setSearchResults [] (setSearchError None (setIsSearching true h)) in
  let (h1, attempt) := trySearch query h0 in
  let (h2, completion) :=
    match attempt with
    | Normal stream => (h1, Normal stream)
    | Throw error => catchSearch error h1
    end in
  (setIsSearching false h2, completion).

End PerformSearch.

(** ** [handleSubmit] (Chat.tsx, lines 71-164) *)

(** The update of lines 82-88. *)
Definition clearStreaming (prev : StreamingState) : StreamingState :=
  {| thinking := [];
     content := [];
     isThinking := true;
     sources := sources prev |}.

Definition sorryMessage : jsstring := Eval cbv in
  js "Sorry, there was an error processing your request.".

(** The update of the [catch] clause (lines 157-162). *)
Definition showFailure (prev : StreamingState) : StreamingState :=
  {| thinking := [];
     content := sorryMessage;
     isThinking := false;
     sources := sources prev |}.

(** The loop of lines 143-150: each result is pushed on [newSources], and the
    sources of the state become the results pushed so far. *)
Fixpoint collectSources (newSources : list SearchResult.t)
  (stream : list SearchResult.t) (c : Chat) : Chat :=
  match stream with
  | [] => c
  | result :: rest =>
      let newSources' := newSources ++ [result] in
      collectSources newSources' rest
        (setStreamingState
           (fun prev =>
              {| thinking := thinking prev; content := content prev;
                 isThinking := isThinking prev; sources := newSources' |})
           c)
  end.

(** The collaborators of a submission: the two routes, and the submit
    function of [useChat], which may throw. *)
Record Collaborators := {
  fetchChat : list Message.t -> Completion ChatResponse;
  fetchSearch : jsstring -> Completion Response;
  originalHandleSubmit : Completion unit
}.

(** Lines 75-88: the input is cleared and the streaming state is reset. *)
Definition turnSubmitted (c : Chat) : Chat :=
  setStreamingState clearStreaming (setInput [] c).

(** Lines 90-163: the reformulation, the search and the submission to the
    chat route, from the state [c2] that [turnSubmitted] has left. *)
Definition runTurn (env : Collaborators) (currentInput : jsstring) (c2 : Chat)
  : Chat :=
  match selectSearchQuery (fetchChat env) (messages c2) currentInput with
  | Throw _ => setStreamingState showFailure c2
  | Normal searchQuery =>
      let (h, searchStream) :=
        performSearch (fetchSearch env) searchQuery (hook c2) in
      let c3 := setHook h c2 in
      match searchStream with
      | Throw _ => setStreamingState showFailure c3
      | Normal stream =>
          let c4 := collectSources [] (produced stream) c3 in
          match originalHandleSubmit env with
          | Throw _ => setStreamingState showFailure c4
          | Normal _ => c4
          end
      end
  end.

Definition handleSubmit (env : Collaborators) (c : Chat) : Chat :=
  if negb (truthy (trim (input c))) then c
  else runTurn env (input c) (turnSubmitted c).

(** The state [Chat] starts with (Chat.tsx, lines 51-56, and the initial
    values of the hooks). *)
Definition initialStreamingState : StreamingState :=
  {| thinking := []; content := []; isThinking := true; sources := [] |}.

Definition initialChat : Chat :=
  {| input := []; messages := [];
     streamingState := initialStreamingState;
     thinkingStartTime := None;
     hook := {| isSearching := false; searchResults := [];
                searchError := None |} |}.

(** ** Vocabulary of the statements, and examples *)

(** The match, read as two searches: the first opening delimiter, then the
    first closing delimiter in what follows it. *)
Definition pairSplit (s : jsstring) : option ThinkMatch :=
  match splitAtFirst openTag s with
  | Some (pre, r) =>
      match splitAtFirst closeTag r with
      | Some (mid, post) =>
          Some {| textBefore := pre; captured := mid; textAfter := post |}
      | None => None
      end
  | None => None
  end.

(** The text has a delimiter pair: an opening delimiter with a closing one
    somewhere after it. *)
Definition hasPair (raw : jsstring) : Prop :=
  exists a m b, raw = a ++ openTag ++ m ++ closeTag ++ b.

Definition hasOpen (raw : jsstring) : Prop :=
  exists a b, raw = a ++ openTag ++ b.

(** [pre] ends where the first opening delimiter of [raw] starts. *)
Definition firstOpen (raw pre rest : jsstring) : Prop :=
  raw = pre ++ openTag ++ rest /\
  forall a b, raw = a ++ openTag ++ b -> (List.length pre <= List.length a)%nat.

(** The first pair of [raw]: the first opening delimiter, and the first
    closing delimiter after it. *)
Definition firstPair (raw pre mid post : jsstring) : Prop :=
  firstOpen raw pre (mid ++ closeTag ++ post) /\
  forall a b, mid ++ closeTag ++ post = a ++ closeTag ++ b ->
              (List.length mid <= List.length a)%nat.

Definition allOf (f : N -> bool) (l : jsstring) : Prop :=
  Forall (fun c => f c = true) l.

(** What a chunk publishes, by the branch of the effect that runs. *)
Definition publish (raw : jsstring) (prev : StreamingState) : StreamingState :=
  match thinkRegex_exec raw with
  | Some m => showMatch m raw prev
  | None =>
      if includes raw openTag then showOpenThinking raw prev
      else if isThinking prev then showAsThinking raw prev
      else showAsContent raw prev
  end.

(** A delimiter starts and ends with a code unit that is not white space, so
    trimming cannot cut into an occurrence of it. *)
Definition solidEnds (t : jsstring) : Prop :=
  exists c t1 t2 d,
    t = c :: t1 /\ t = t2 ++ [d] /\
    isWhiteSpace c = false /\ isWhiteSpace d = false.

(** The text of the normalization example: two spaces, [foo bar] between
    the tags of a [b] element, a line break, [baz] between double quotes, and
    two spaces. *)
Definition normalizationExample : jsstring :=
  js "  <b>foo bar</b>" ++ [newline; quote] ++ js "baz" ++ [quote] ++ js "  ".

(** The messages of a first turn, and a reformulation route that answers
    with two double quotes, in two chunks. *)
Definition followUp : list Message.t :=
  [ {| Message.role := user;
       Message.content := js "capital of France" |};
    {| Message.role := assistant;
       Message.content := js "<think>One source.</think>Paris." |} ].

Definition emptyQuotes (_ : list Message.t) : Completion ChatResponse :=
  Normal {| chatOk := true;
            chatBody := Some (Chunk [quote] (Chunk [quote] Done)) |}.

(** [a] may stand before [b] in a sequence that descends by score. *)
Definition scoreDescends (a b : SearchResult.t) : Prop :=
  (SearchResult.score b <= SearchResult.score a)%Q.

(** The results whose score is [v]. *)
Definition hasScore (v : Q) (r : SearchResult.t) : bool :=
  Qeq_bool (SearchResult.score r) v.

(** The search has failed: the request was rejected, or the response is not
    a success, or its body cannot be read. *)
Definition searchFailed (fetched : Completion Response) : Prop :=
  match fetched with
  | Throw _ => True
  | Normal response =>
      ok response = false \/ exists e, json response = Throw e
  end.

(** The message that the [catch] clause takes from what was thrown. *)
Definition messageOf (e : Thrown) : jsstring :=
  match e with
  | ErrorObject m => m
  | OtherValue => failedToPerformSearch
  end.

Definition idleHook : SearchHook :=
  {| isSearching := false; searchResults := []; searchError := None |}.

(** The message of a failed search, case by case as the hook computes it. *)
Definition failureMessage (fetched : Completion Response) : jsstring :=
  match fetched with
  | Throw e => messageOf e
  | Normal response =>
      match json response with
      | Throw e => messageOf e
      | Normal error => orElse (details error) searchRequestFailed
      end
  end.

(** A result, a chat that has shown it, and collaborators whose search
    route fails with the details [rate limited]. *)
Definition parisResult : SearchResult.t :=
  {| SearchResult.title := js "Paris";
     SearchResult.url := js "https://example.org/paris";
     SearchResult.content := js "Paris is the capital of France.";
     SearchResult.score := 9 # 10;
     SearchResult.published_date := None |}.

Definition secondQuestion : Chat :=
  {| input := js "population of Paris";
     messages := followUp;
     streamingState :=
       {| thinking := js "Checking the sources"; content := js "Paris.";
          isThinking := false; sources := [parisResult] |};
     thinkingStartTime := None;
     hook := {| isSearching := false; searchResults := [parisResult];
                searchError := None |} |}.

Definition rateLimited : Collaborators :=
  {| fetchChat := fun _ => Normal {| chatOk := false; chatBody := None |};
     fetchSearch := fun _ =>
       Normal {| ok := false;
                 json := Normal {| results := None;
                                   details := Some (js "rate limited") |} |};
     originalHandleSubmit := Normal tt |}.

(** ** Streams of chunks *)

(** The chunks of an answer, one after the other: each comes with the time
    of its arrival and the text accumulated so far. *)
Fixpoint chunksArrived (chunks : list (N * jsstring)) (c : Chat) : Chat :=
  match chunks with
  | [] => c
  | (now, accumulated) :: rest => chunksArrived rest (chunkArrived now accumulated c)
  end.

(** The text holds no tag: no [<] has a [>] somewhere after it. *)
Definition noTag (s : jsstring) : Prop :=
  forall a b, s = a ++ lessThan :: b -> ~ In greaterThan b.

(** The text neither starts nor ends with a code unit of the class [f]. *)
Definition bareEnds (f : N -> bool) (s : jsstring) : Prop :=
  (forall c t, s = c :: t -> f c = false) /\
  (forall t c, s = t ++ [c] -> f c = false).

(** The pauses of a stream, in milliseconds, added up. *)
Fixpoint totalDelay (events : list StreamEvent) : N :=
  match events with
  | [] => 0
  | Yield _ :: rest => totalDelay rest
  | Delay ms :: rest => ms + totalDelay rest
  end.

(** A second result, with a lower score, and collaborators whose search
    brings it before [parisResult]. *)
Definition franceResult : SearchResult.t :=
  {| SearchResult.title := js "France";
     SearchResult.url := js "https://example.org/france";
     SearchResult.content := js "France is a country of Europe.";
     SearchResult.score := 1 # 2;
     SearchResult.published_date := None |}.

Definition twoResults : Collaborators :=
  {| fetchChat := fun _ => Normal {| chatOk := false; chatBody := None |};
     fetchSearch := fun _ =>
       Normal {| ok := true;
                 json := Normal {| results := Some [franceResult; parisResult];
                                   details := None |} |};
     originalHandleSubmit := Normal tt |}.

(** ** The search route (api/tavily/search/route.ts) *)




(** The body that the route sends: the answer of the provider as it is, or
    the object of the [catch] clause with its two members. *)
Inductive SearchRouteBody :=
| ProviderAnswer (response : ResponseBody)
| ErrorBody (error details : jsstring).

Record SearchRouteResponse := {
  routeStatus : N;
  routeBody : SearchRouteBody
}.



(** The response of the route as the hook receives it when the transport
    does not fail: the status decides [ok], and the body is read back as it
    was written. *)
Definition received (r : SearchRouteResponse) : Response :=
  {| ok := N.leb 200 (routeStatus r) && N.leb (routeStatus r) 299;
     json :=
       Normal
         match routeBody r with
         | ProviderAnswer response => response
         | ErrorBody _ d => {| results := None; details := Some d |}
         end |}.


(** ** The chat route (api/deepseek/chat/route.ts) *)

Definition QUERY_REFORMULATION_PROMPT : jsstring := Eval cbv in
  js "You are an AI assistant that helps reformulate user questions to make them more search-friendly while maintaining context from the conversation."
  ++ [newline; newline]
  ++ js "Your task is to:"
  ++ [newline]
  ++ js "1. Analyze the conversation history and the new question"
  ++ [newline]
  ++ js "2. Create a detailed, search-optimized query that captures both the specific question and relevant context"
  ++ [newline]
  ++ js "3. Return ONLY the reformulated query, nothing else"
  ++ [newline; newline]
  ++ js "Example:"
  ++ [newline]
  ++ js "If discussing SpaceX's Starship and user asks "
  ++ [quote]
  ++ js "When is the next test?"
  ++ [quote]
  ++ js ", you might return:"
  ++ [newline; quote]
  ++ js "When is SpaceX's next Starship test launch date and current test flight schedule"
  ++ [quote].

Definition SYSTEM_PROMPT : jsstring := Eval cbv in
  js "You are an advanced AI search engine assistant, similar to Perplexity AI. Your primary role is to analyze search results and provide extremely detailed, well-structured, and comprehensive information to users."
  ++ [newline; newline]
  ++ js "IMPORTANT: You MUST ALWAYS provide BOTH a thinking section AND a detailed response section for every query."
  ++ [newline; newline]
  ++ js "For each query, you will:"
  ++ [newline]
  ++ js "1. ALWAYS start with a <think> section where you:"
  ++ [newline]
  ++ js "   - Analyze the provided search results in detail"
  ++ [newline]
  ++ js "   - Evaluate source credibility and cross-reference information"
  ++ [newline]
  ++ js "   - Explain your reasoning process step by step"
  ++ [newline]
  ++ js "   - Identify any conflicting information or gaps in the sources"
  ++ [newline]
  ++ js "   - Plan how you'll structure your detailed response"
  ++ [newline; newline]
  ++ js "2. ALWAYS follow with an extensive response section where you:"
  ++ [newline]
  ++ js "   - Break down the information into clear, logical sections with headings"
  ++ [newline]
  ++ js "   - Provide comprehensive details for each section"
  ++ [newline]
  ++ js "   - Include specific dates, numbers, and facts when available"
  ++ [newline]
  ++ js "   - Cite sources for every major claim using [Source Title](URL)"
  ++ [newline]
  ++ js "   - Compare and contrast different sources when relevant"
  ++ [newline]
  ++ js "   - Add context and background information"
  ++ [newline]
  ++ js "   - Consider implications and future developments"
  ++ [newline]
  ++ js "   - Summarize key points at the end if the response is long"
  ++ [newline; newline]
  ++ js "Your response MUST ALWAYS follow this EXACT structure:"
  ++ [newline]
  ++ js "<think>"
  ++ [newline]
  ++ js "[Your detailed analysis here - REQUIRED]"
  ++ [newline]
  ++ js "- Evaluate each source's credibility and relevance"
  ++ [newline]
  ++ js "- Cross-reference information between sources"
  ++ [newline]
  ++ js "- Identify any gaps or inconsistencies"
  ++ [newline]
  ++ js "- Explain how you'll organize the information"
  ++ [newline]
  ++ js "</think>"
  ++ [newline; newline]
  ++ js "[Your comprehensive response here - REQUIRED]"
  ++ [newline]
  ++ js "## Overview"
  ++ [newline]
  ++ js "[Provide a brief introduction]"
  ++ [newline; newline]
  ++ js "## Detailed Analysis"
  ++ [newline]
  ++ js "[Break down into relevant subsections]"
  ++ [newline; newline]
  ++ js "## Additional Context"
  ++ [newline]
  ++ js "[Provide broader context and implications]"
  ++ [newline; newline]
  ++ js "## Key Takeaways"
  ++ [newline]
  ++ js "[Summarize main points if response is lengthy]"
  ++ [newline; newline]
  ++ js "Remember: "
  ++ [newline]
  ++ js "- Both sections are MANDATORY for EVERY response"
  ++ [newline]
  ++ js "- Never skip the thinking section"
  ++ [newline]
  ++ js "- Always be extremely detailed and thorough"
  ++ [newline]
  ++ js "- Always structure information into clear sections"
  ++ [newline]
  ++ js "- Always ground your response in the search results"
  ++ [newline]
  ++ js "- Format everything in markdown for better readability".

(** The messages that the route gives to the model. *)
Inductive LLMMessage :=
| SystemMessage (text : jsstring)
| HumanMessage (text : jsstring)
| AIMessage (text : jsstring).

(** The mapping of lines 95-99 and 125-129: a message of the user is a
    human message, any other one is a message of the model. *)
Definition toLLMMessage (m : Message.t) : LLMMessage :=
  match Message.role m with
  | user => HumanMessage (Message.content m)
  | _ => AIMessage (Message.content m)
  end.

(** [Array.prototype.join]. *)
Fixpoint join (separator : jsstring) (parts : list jsstring) : jsstring :=
  match parts with
  | [] => []
  | [x] => x
  | x :: rest => x ++ separator ++ join separator rest
  end.

(** [Array.prototype.map] with the index, counted from [index]. *)
Fixpoint mapFrom {A B : Type} (index : nat) (f : nat -> A -> B) (l : list A)
  : list B :=
  match l with
  | [] => []
  | x :: rest => f index x :: mapFrom (S index) f rest
  end.

(** An index in a template literal: its decimal digits. *)
Definition decimal (n : nat) : jsstring :=
  js (NilEmpty.string_of_uint (Nat.to_uint n)).

Definition failedToProcessChat : jsstring := Eval cbv in
  js "Failed to process chat".

(** What the route answers: the stream of the model for a prompt, or an
    error with its status. *)
Inductive ChatRouteResponse :=
| StreamOf (prompt : list LLMMessage)
| ChatError (status : N) (error : jsstring).

Section ChatRoute.

(** How a template literal writes a score, and the model that reformulates
    the question. *)
Variable showNumber : Q -> jsstring.
Variable reformulationLLM : list LLMMessage -> Completion jsstring.

(** The template of line 110. *)
Definition describeResult (index : nat) (result : SearchResult.t) : jsstring :=
  js "[" ++ decimal (index + 1) ++ js "] " ++ [quote]
  ++ SearchResult.title result ++ [quote; newline]
  ++ js "URL: " ++ SearchResult.url result ++ [newline]
  ++ js "Relevance Score: " ++ showNumber (SearchResult.score result)
  ++ [newline]
  ++ js "Content: " ++ SearchResult.content result ++ [newline]
  ++ js "---".

(** Lines 108-112.  [None] stands for search results that are missing. *)
Definition searchContextOf (searchResults : option (list SearchResult.t))
  : jsstring :=
  match searchResults with
  | Some (r :: l) =>
      [newline; newline] ++ js "Search Results:" ++ [newline]
      ++ join [newline] (mapFrom 0 describeResult (r :: l))
  | _ => [newline; newline] ++ js "No search results available for this query."
  end.

(** Lines 115-117. *)
Definition queryContextOf (hasContext : bool) (question searchQuery : jsstring)
  : jsstring :=
  if hasContext
  then [newline] ++ js "Original question: " ++ question ++ [newline]
       ++ js "Reformulated search query: " ++ searchQuery ++ [newline]
  else [].

(** Line 120. *)
Definition userMessageOf (question queryContext searchContext : jsstring)
  : jsstring :=
  question ++ queryContext ++ [newline; newline]
  ++ js "Please use the following search results to answer the question. Remember to cite your sources:"
  ++ searchContext.

(** The request of lines 93-101. *)
Definition routeReformulationRequest (messages0 : list Message.t)
  (question : jsstring) : list LLMMessage :=
  [SystemMessage QUERY_REFORMULATION_PROMPT]
  ++ map toLLMMessage (removelast messages0)
  ++ [HumanMessage
        (js "Given this context, reformulate this question for search: "
         ++ question)].

(** [POST] of the chat route (lines 70-143), for a request whose body has
    been read.  With no message at all, the last message is undefined and
    reading its content throws, inside the [try]. *)
Definition chatRoute (messages0 : list Message.t)
  (searchResults0 : option (list SearchResult.t)) : ChatRouteResponse :=
  let hasContext := Nat.ltb 2 (List.length messages0) in
  match lastOf messages0 with
  | None => ChatError 500 failedToProcessChat
  | Some lastMessage =>
      match
        (if hasContext
         then reformulationLLM
                (routeReformulationRequest messages0
                   (Message.content lastMessage))
         else Normal (Message.content lastMessage))
      with
      | Throw _ => ChatError 500 failedToProcessChat
      | Normal searchQuery =>
          let searchContext := searchContextOf searchResults0 in
          let queryContext :=
            queryContextOf hasContext (Message.content lastMessage)
              searchQuery in
          let userMessage :=
            userMessageOf (Message.content lastMessage) queryContext
              searchContext in
          StreamOf
            ([SystemMessage SYSTEM_PROMPT]
             ++ map toLLMMessage (removelast messages0)
             ++ [HumanMessage userMessage])
      end
  end.

End ChatRoute.

(** [p] occurs in [s]. *)
Definition occursIn (p s : jsstring) : Prop := exists a b, s = a ++ p ++ b.

Definition endsWith (s p : jsstring) : Prop := exists a, s = a ++ p.

(** A way to write a score, for the examples: its numerator over its
    denominator. *)
Definition showFraction (q : Q) : jsstring :=
  decimal (Z.to_nat (Qnum q)) ++ js "/" ++ decimal (Pos.to_nat (Qden q)).

(** A model that answers every reformulation with the same query. *)
Definition sameQuery (_ : list LLMMessage) : Completion jsstring :=
  Normal (js "population of Paris").

(** The three messages of a second turn. *)
Definition secondTurn : list Message.t :=
  followUp
  ++ [ {| Message.role := user; Message.content := js "and its population?" |} ].

(** ** What is shown (SearchResults.tsx, and Chat.tsx, lines 237-467) *)

(** The views keep what is shown and under which condition; the styling of
    the elements is left out. *)

(** A result in the list: the address of its link, the text of the link, the
    date when there is one (as it was received: its formatting depends on the
    locale), and the snippet. *)
Record ResultCard := {
  cardAddress : jsstring;
  cardLabel : jsstring;
  cardDate : option jsstring;
  cardSnippet : jsstring
}.

(** Lines 44-64 of [SearchResults]. *)
Definition resultCard (result : SearchResult.t) : ResultCard :=
  {| cardAddress := SearchResult.url result;
     cardLabel :=
       if truthy (SearchResult.title result) then SearchResult.title result
       else SearchResult.url result;
     cardDate :=
       match SearchResult.published_date result with
       | Some d => if truthy d then Some d else None
       | None => None
       end;
     cardSnippet :=
       firstn 200 (SearchResult.content result)
       ++ (if Nat.ltb 200 (List.length (SearchResult.content result))
           then js "..." else []) |}.

Inductive SearchResultsView :=
| ShowError (error : jsstring)
| ShowLoading
| ShowSearching
| ShowResults (cards : list ResultCard).

(** The component [SearchResults] (lines 11-69). *)
Definition SearchResults (results0 : list SearchResult.t) (isSearching0 : bool)
  (error : option jsstring) : SearchResultsView :=
  match error with
  | Some e =>
      if truthy e then ShowError e
      else if isSearching0 then ShowLoading
      else match results0 with
           | [] => ShowSearching
           | _ :: _ => ShowResults (map resultCard results0)
           end
  | None =>
      if isSearching0 then ShowLoading
      else match results0 with
           | [] => ShowSearching
           | _ :: _ => ShowResults (map resultCard results0)
           end
  end.

(** The block of the answer that is being streamed (Chat.tsx, lines
    243-371): the panel of the sources, the panel of the thinking text with
    its title, and the answer; each is shown under its condition. *)
Record StreamingBlock := {
  sourcesPanel : option SearchResultsView;
  thinkingPanel : option (jsstring * jsstring);
  answerPanel : option jsstring
}.

Definition streamingBlock (c : Chat) : StreamingBlock :=
  let s := streamingState c in
  {| sourcesPanel :=
       match sources s with
       | [] => None
       | _ :: _ =>
           Some (SearchResults (sources s) (isSearching (hook c))
                   (searchError (hook c)))
       end;
     thinkingPanel :=
       if truthy (thinking s)
       then Some (if truthy (content s) then js "Thoughts" else js "Thinking",
                  thinking s)
       else None;
     answerPanel := if truthy (content s) then Some (content s) else None |}.

Inductive MessageView :=
| ShowStreaming (block : StreamingBlock)
| ShowUser (text : jsstring)
| ShowAssistant (thinkingText : option jsstring) (answer : jsstring).

(** The body of the [map] of lines 237-467. *)
Definition renderMessage (c : Chat) (isLastMessage : bool) (message : Message.t)
  : MessageView :=
  let parsed :=
    match Message.role message with
    | assistant => parseMessage (Message.content message)
    | _ => {| parsedThinking := None;
              parsedContent := Message.content message |}
    end in
  let streaming :=
    match Message.role message with
    | assistant =>
        isLastMessage
        && (truthy (thinking (streamingState c))
            || truthy (content (streamingState c)))
    | _ => false
    end in
  if streaming then ShowStreaming (streamingBlock c)
  else match Message.role message with
       | user => ShowUser (Message.content message)
       | _ =>
           ShowAssistant
             match parsedThinking parsed with
             | Some t => if truthy t then Some t else None
             | None => None
             end
             (parsedContent parsed)
       end.

Definition renderMessages (c : Chat) : list MessageView :=
  mapFrom 0
    (fun i message =>
       renderMessage c (Nat.eqb (S i) (List.length (messages c))) message)
    (messages c).

(** A text that is shown only when it is not empty. *)
Definition whenNotEmpty (t : jsstring) : option jsstring :=
  if truthy t then Some t else None.

(** ** [formatThinkingTime] (Chat.tsx, lines 39-48) *)

(** The function, for a whole number of seconds (below the range where a
    number is written with an exponent). *)
Definition formatThinkingTime (seconds : nat) : jsstring :=
  if Nat.ltb seconds 60 then decimal seconds ++ js " seconds"
  else
    let minutes := Nat.div seconds 60 in
    let remainingSeconds := Nat.modulo seconds 60 in
    if Nat.ltb 0 remainingSeconds
    then decimal minutes ++ js " minute"
         ++ (if Nat.ltb 1 minutes then js "s" else [])
         ++ js " " ++ decimal remainingSeconds ++ js " seconds"
    else decimal minutes ++ js " minute"
         ++ (if Nat.ltb 1 minutes then js "s" else []).

Definition isDigit (c : N) : bool := N.leb 48 c && N.leb c 57.

(** The states that the loop of lines 143-150 goes through, one for each
    result of the stream. *)
Fixpoint collectSourcesTrace (newSources : list SearchResult.t)
  (stream : list SearchResult.t) (c : Chat) : list Chat :=
  match stream with
  | [] => []
  | result :: rest =>
      let newSources' := newSources ++ [result] in
      let c' :=
        setStreamingState
          (fun prev =>
             {| thinking := thinking prev; content := content prev;
                isThinking := isThinking prev; sources := newSources' |})
          c in
      c' :: collectSourcesTrace newSources' rest c'
  end.

(** * Properties *)

(** ** Scanning *)

Lemma startsWith_app (p r : jsstring) : startsWith p (p ++ r) = true.
Proof.
  induction p as [|a p IH]; simpl; [reflexivity|].
  now rewrite N.eqb_refl, IH.
Qed.

Lemma startsWith_skipn (p s : jsstring) :
  startsWith p s = true -> s = p ++ skipn (List.length p) s.
Proof.
  revert s; induction p as [|a p IH]; intros s H; simpl in *; [reflexivity|].
  destruct s as [|b s]; [discriminate|].
  apply andb_prop in H as [Hab Hp].
  apply N.eqb_eq in Hab; subst b.
  now rewrite <- (IH s Hp).
Qed.

Lemma startsWith_iff (p s : jsstring) :
  startsWith p s = true <-> exists r, s = p ++ r.
Proof.
  split.
  - intros H; eexists; now apply startsWith_skipn.
  - intros [r ->]; apply startsWith_app.
Qed.

Lemma splitAtFirst_eq (p s : jsstring) :
  splitAtFirst p s =
  if startsWith p s then Some ([], skipn (List.length p) s)
  else match s with
       | [] => None
       | c :: s' =>
           match splitAtFirst p s' with
           | Some (b, a) => Some (c :: b, a)
           | None => None
           end
       end.
Proof. destruct s; reflexivity. Qed.

Lemma splitAtFirst_sound (p s b a : jsstring) :
  splitAtFirst p s = Some (b, a) -> s = b ++ p ++ a.
Proof.
  revert b; induction s as [|c s IH]; intros b; rewrite splitAtFirst_eq;
    destruct (startsWith p _) eqn:E.
  - intros [= <- <-]; now apply startsWith_skipn.
  - discriminate.
  - intros [= <- <-]; now apply startsWith_skipn.
  - destruct (splitAtFirst p s) as [[b' a']|]; [|discriminate].
    intros [= <- <-]; simpl; f_equal; now apply IH.
Qed.

Lemma splitAtFirst_least (p s b a : jsstring) :
  splitAtFirst p s = Some (b, a) ->
  forall x y, s = x ++ p ++ y -> (List.length b <= List.length x)%nat.
Proof.
  revert b; induction s as [|c s IH]; intros b; rewrite splitAtFirst_eq;
    destruct (startsWith p _) eqn:E.
  - intros [= <- <-] x y _; simpl; lia.
  - discriminate.
  - intros [= <- <-] x y _; simpl; lia.
  - destruct (splitAtFirst p s) as [[b' a']|] eqn:F; [|discriminate].
    intros [= <- <-] x y Hs.
    destruct x as [|c' x]; simpl in Hs.
    + rewrite Hs, startsWith_app in E; discriminate.
    + injection Hs as -> ->; simpl.
      apply le_n_S, (IH b' eq_refl x y eq_refl).
Qed.

Lemma splitAtFirst_complete (p s x y : jsstring) :
  s = x ++ p ++ y -> exists b a, splitAtFirst p s = Some (b, a).
Proof.
  revert s; induction x as [|c x IH]; intros s ->; rewrite splitAtFirst_eq.
  - simpl; rewrite startsWith_app; eauto.
  - destruct (startsWith p _); [eauto|]; simpl.
    destruct (IH _ eq_refl) as (b & a & ->); eauto.
Qed.

Lemma splitAtFirst_None (p s : jsstring) :
  splitAtFirst p s = None -> forall x y, s <> x ++ p ++ y.
Proof.
  intros H x y Hs.
  destruct (splitAtFirst_complete p s x y Hs) as (b & a & E); congruence.
Qed.

Lemma app_same_length {A : Type} (a b x y : list A) :
  List.length a = List.length b -> a ++ x = b ++ y -> a = b /\ x = y.
Proof.
  revert b; induction a as [|c a IH]; intros [|d b] Hl H; simpl in *;
    try discriminate; [now split|].
  injection H as -> H; injection Hl as Hl.
  destruct (IH b Hl H) as [-> ->]; now split.
Qed.

(** The split is the one at the first occurrence, and it is the only one. *)
Lemma splitAtFirst_unique (p s b a : jsstring) :
  s = b ++ p ++ a ->
  (forall x y, s = x ++ p ++ y -> (List.length b <= List.length x)%nat) ->
  splitAtFirst p s = Some (b, a).
Proof.
  intros Hs Hmin.
  destruct (splitAtFirst_complete p s b a Hs) as (b' & a' & E).
  pose proof (splitAtFirst_sound p s b' a' E) as Hs'.
  pose proof (splitAtFirst_least p s b' a' E b a Hs) as H1.
  pose proof (Hmin _ _ Hs') as H2.
  assert (Hlen : List.length b = List.length b') by lia.
  rewrite Hs in Hs'.
  apply app_same_length in Hs'; [|exact Hlen].
  destruct Hs' as [-> Hr]; apply app_inv_head in Hr; now subst.
Qed.

(** ** The match of the thinking expression *)

Lemma thinkRegex_exec_eq (s : jsstring) :
  thinkRegex_exec s =
  match
    (if startsWith openTag s
     then splitAtFirst closeTag (skipn (List.length openTag) s)
     else None)
  with
  | Some (inner, rest) =>
      Some {| textBefore := []; captured := inner; textAfter := rest |}
  | None =>
      match s with
      | [] => None
      | c :: s' =>
          match thinkRegex_exec s' with
          | Some m =>
              Some {| textBefore := c :: textBefore m;
                      captured := captured m;
                      textAfter := textAfter m |}
          | None => None
          end
      end
  end.
Proof. destruct s; reflexivity. Qed.

(** A start position that fails because no closing delimiter follows cannot
    be followed by a start position that succeeds: the engine's scan and the
    two searches agree. *)
Lemma thinkRegex_exec_pairSplit (s : jsstring) :
  thinkRegex_exec s = pairSplit s.
Proof.
  induction s as [|c s IH]; [reflexivity|].
  rewrite thinkRegex_exec_eq; unfold pairSplit.
  rewrite (splitAtFirst_eq openTag (c :: s)).
  destruct (startsWith openTag (c :: s)) eqn:E.
  - destruct (splitAtFirst closeTag (skipn (List.length openTag) (c :: s)))
      as [[mid post]|] eqn:F; [reflexivity|].
    rewrite IH; unfold pairSplit.
    destruct (splitAtFirst openTag s) as [[pre r]|] eqn:G; [|reflexivity].
    destruct (splitAtFirst closeTag r) as [[mid post]|] eqn:H; [|reflexivity].
    exfalso.
    apply startsWith_skipn in E.
    apply splitAtFirst_sound in G, H.
    set (t := skipn (List.length openTag) (c :: s)) in *.
    assert (K : openTag ++ t = (c :: pre ++ openTag ++ mid) ++ closeTag ++ post).
    { rewrite <- E, G, H; simpl; now rewrite <- !app_assoc. }
    apply app_eq_app in K as [l [[K _]|[_ K]]].
    + apply (f_equal (@List.length N)) in K.
      simpl in K; rewrite !length_app in K; simpl in K; lia.
    + exact (splitAtFirst_None closeTag t F l post K).
  - rewrite IH; unfold pairSplit.
    destruct (splitAtFirst openTag s) as [[pre r]|]; [|reflexivity].
    destruct (splitAtFirst closeTag r) as [[mid post]|]; reflexivity.
Qed.

Lemma firstOpen_iff (raw pre rest : jsstring) :
  firstOpen raw pre rest <-> splitAtFirst openTag raw = Some (pre, rest).
Proof.
  split.
  - intros [H1 H2]; now apply splitAtFirst_unique.
  - intros H; split.
    + now apply splitAtFirst_sound.
    + now apply (splitAtFirst_least openTag raw pre rest).
Qed.

Lemma firstPair_iff (raw pre mid post : jsstring) :
  firstPair raw pre mid post <->
  thinkRegex_exec raw =
  Some {| textBefore := pre; captured := mid; textAfter := post |}.
Proof.
  rewrite thinkRegex_exec_pairSplit; unfold pairSplit, firstPair.
  rewrite firstOpen_iff; split.
  - intros [-> H].
    rewrite (splitAtFirst_unique closeTag _ mid post eq_refl H); reflexivity.
  - destruct (splitAtFirst openTag raw) as [[pre' r]|]; [|discriminate].
    destruct (splitAtFirst closeTag r) as [[mid' post']|] eqn:F; [|discriminate].
    intros [= -> -> ->].
    pose proof (splitAtFirst_sound closeTag r mid post F) as ->.
    split; [reflexivity|].
    now apply (splitAtFirst_least closeTag _ mid post).
Qed.

Lemma hasOpen_iff (raw : jsstring) :
  hasOpen raw <-> includes raw openTag = true.
Proof.
  unfold hasOpen, includes; split.
  - intros (a & b & H).
    destruct (splitAtFirst_complete openTag raw a b H) as (x & y & ->).
    reflexivity.
  - destruct (splitAtFirst openTag raw) as [[x y]|] eqn:E; [|discriminate].
    intros _; exists x, y; now apply splitAtFirst_sound.
Qed.

Lemma hasPair_iff (raw : jsstring) :
  hasPair raw <-> exists m, thinkRegex_exec raw = Some m.
Proof.
  rewrite thinkRegex_exec_pairSplit; unfold hasPair, pairSplit; split.
  - intros (a & m & b & H).
    destruct (splitAtFirst_complete openTag raw a _ H) as (pre & r & E).
    rewrite E.
    pose proof (splitAtFirst_least openTag raw pre r E a _ H) as Hl.
    apply splitAtFirst_sound in E.
    assert (K : exists z, r = z ++ closeTag ++ b).
    { rewrite E in H.
      replace (a ++ openTag ++ m ++ closeTag ++ b)
        with ((a ++ openTag ++ m) ++ closeTag ++ b) in H
        by now rewrite <- !app_assoc.
      replace (pre ++ openTag ++ r) with ((pre ++ openTag) ++ r) in H
        by now rewrite <- app_assoc.
      apply app_eq_app in H as [l [[H K]|[_ K]]].
      - apply (f_equal (@List.length N)) in H.
        rewrite !length_app in H.
        assert (l = []) as -> by (destruct l; [reflexivity|simpl in H; lia]).
        exists []; now rewrite K.
      - now exists l. }
    destruct K as [z ->].
    destruct (splitAtFirst_complete closeTag _ z b eq_refl) as (mid & post & ->).
    eauto.
  - destruct (splitAtFirst openTag raw) as [[pre r]|] eqn:E;
      [|intros [? [=]]].
    destruct (splitAtFirst closeTag r) as [[mid post]|] eqn:F;
      [|intros [? [=]]].
    intros _; exists pre, mid, post.
    apply splitAtFirst_sound in E, F; now subst.
Qed.

(** ** Trimming *)

Lemma dropWhile_split (f : N -> bool) (s : jsstring) :
  exists l, s = l ++ dropWhile f s /\ allOf f l.
Proof.
  induction s as [|c s (l & E & Hl)]; simpl.
  - exists []; split; [reflexivity|constructor].
  - destruct (f c) eqn:F.
    + exists (c :: l); split; [simpl; now f_equal|now constructor].
    + exists []; split; [reflexivity|constructor].
Qed.

Lemma dropWhile_head (f : N -> bool) (s t : jsstring) (c : N) :
  dropWhile f s = c :: t -> f c = false.
Proof.
  induction s as [|d s IH]; simpl; [discriminate|].
  destruct (f d) eqn:F; [exact IH|].
  now intros [= <- _].
Qed.

Lemma dropWhileEnd_split (f : N -> bool) (s : jsstring) :
  exists r, s = dropWhileEnd f s ++ r /\ allOf f r.
Proof.
  unfold dropWhileEnd.
  destruct (dropWhile_split f (rev s)) as (l & E & Hl).
  exists (rev l); split.
  - rewrite <- rev_app_distr, <- E; symmetry; apply rev_involutive.
  - now apply Forall_rev.
Qed.

Lemma dropWhileEnd_last (f : N -> bool) (s t : jsstring) (c : N) :
  dropWhileEnd f s = t ++ [c] -> f c = false.
Proof.
  unfold dropWhileEnd; intros H.
  apply (f_equal (@rev N)) in H.
  rewrite rev_involutive, rev_app_distr in H; simpl in H.
  exact (dropWhile_head f (rev s) (rev t) c H).
Qed.

(** [trim] removes white space from the two ends, and nothing else. *)
Lemma trim_split (s : jsstring) :
  exists l r, s = l ++ trim s ++ r /\ allOf isWhiteSpace l /\ allOf isWhiteSpace r.
Proof.
  unfold trim.
  destruct (dropWhile_split isWhiteSpace s) as (l & E & Hl).
  destruct (dropWhileEnd_split isWhiteSpace (dropWhile isWhiteSpace s))
    as (r & F & Hr).
  exists l, r; repeat split; [|assumption..].
  now rewrite <- F.
Qed.

Lemma trim_last (s t : jsstring) (c : N) :
  trim s = t ++ [c] -> isWhiteSpace c = false.
Proof. apply dropWhileEnd_last. Qed.

Lemma trim_head (s t : jsstring) (c : N) :
  trim s = c :: t -> isWhiteSpace c = false.
Proof.
  unfold trim; intros H.
  destruct (dropWhileEnd_split isWhiteSpace (dropWhile isWhiteSpace s))
    as (r & F & _).
  rewrite H in F; simpl in F.
  exact (dropWhile_head isWhiteSpace s (t ++ r) c F).
Qed.

(** ** [parseMessage] *)

Lemma parseMessage_pair (raw pre mid post : jsstring) :
  firstPair raw pre mid post ->
  parseMessage raw =
  {| parsedThinking := Some (trim mid); parsedContent := trim (pre ++ post) |}.
Proof.
  intros H; apply firstPair_iff in H.
  unfold parseMessage, replaceThinkRegex; now rewrite H.
Qed.

Lemma parseMessage_noPair (raw : jsstring) :
  ~ hasPair raw ->
  parseMessage raw = {| parsedThinking := None; parsedContent := trim raw |}.
Proof.
  intros H; unfold parseMessage.
  destruct (thinkRegex_exec raw) as [m|] eqn:E; [|reflexivity].
  exfalso; apply H, hasPair_iff; eauto.
Qed.

Lemma hasPair_firstPair (raw : jsstring) :
  hasPair raw -> exists pre mid post, firstPair raw pre mid post.
Proof.
  intros H; apply hasPair_iff in H as [[pre mid post] E].
  exists pre, mid, post; now apply firstPair_iff.
Qed.

(** ** The streaming effect *)

Lemma lastOf_snoc {A : Type} (l : list A) (x : A) : lastOf (l ++ [x]) = Some x.
Proof.
  induction l as [|a l IH]; [reflexivity|].
  simpl; rewrite IH; now destruct (l ++ [x]) eqn:E; [destruct l|].
Qed.

Lemma lastOf_withAssistantText (text : jsstring) (ms : list Message.t) :
  lastOf (withAssistantText text ms)
  = Some {| Message.role := assistant; Message.content := text |}.
Proof.
  unfold withAssistantText.
  destruct (lastOf ms) as [l|]; [destruct (Message.role l)|];
    apply lastOf_snoc.
Qed.

Lemma chunkArrived_publish (now : N) (raw : jsstring) (c : Chat) :
  streamingState (chunkArrived now raw c) = publish raw (streamingState c).
Proof.
  unfold chunkArrived, streamingEffect, publish.
  cbn [messages setMessages].
  rewrite lastOf_withAssistantText; cbn [Message.role Message.content].
  destruct (thinkRegex_exec raw) as [m|]; [|destruct (includes raw openTag)].
  - now destruct (_ && _).
  - now destruct (_ && _).
  - cbn [andb streamingState setMessages]; now destruct (isThinking _).
Qed.

Lemma openTag_solidEnds : solidEnds openTag.
Proof.
  exists 60%N, (skipn 1 openTag), (removelast openTag), 62%N.
  repeat split; reflexivity.
Qed.

Lemma closeTag_solidEnds : solidEnds closeTag.
Proof.
  exists 60%N, (skipn 1 closeTag), (removelast closeTag), 62%N.
  repeat split; reflexivity.
Qed.

Lemma trim_keeps_occurrence (s x t y : jsstring) :
  solidEnds t -> s = x ++ t ++ y ->
  exists l x' y' r,
    trim s = x' ++ t ++ y' /\ x = l ++ x' /\ y = y' ++ r /\
    allOf isWhiteSpace l /\ allOf isWhiteSpace r.
Proof.
  intros (c & t1 & t2 & d & Hc & Hd & Wc & Wd) Hs.
  destruct (trim_split s) as (l & r & E & Hl & Hr).
  set (u := trim s) in *; clearbody u; subst s.
  assert (K : exists z, x = l ++ z /\ u ++ r = z ++ t ++ y).
  { apply app_eq_app in E as [z [[E1 E2]|[E1 E2]]]; [now exists z|].
    destruct z as [|c' z].
    - exists []; rewrite app_nil_r in E1; subst l.
      now rewrite app_nil_r.
    - exfalso.
      rewrite Hc in E2; injection E2 as <- _.
      rewrite E1 in Hl; apply Forall_app in Hl as [_ Hl].
      inversion Hl; congruence. }
  destruct K as (z & -> & K).
  rewrite (app_assoc z t y) in K.
  apply app_eq_app in K as [w [[K1 K2]|[K1 K2]]].
  - exists l, z, w, r; rewrite K1, <- app_assoc; repeat split; auto.
  - induction w as [|d' w' _] using rev_ind.
    + exists l, z, [], r; rewrite app_nil_r in K1; simpl in K2.
      rewrite <- K1, app_nil_r; repeat split; auto.
    + exfalso.
      rewrite Hd, !app_assoc in K1.
      apply app_inj_tail in K1 as [_ <-].
      rewrite K2 in Hr; apply Forall_app in Hr as [Hr _].
      apply Forall_app in Hr as [_ Hr].
      inversion Hr; congruence.
Qed.

(** ** Claims on the thinking delimiters *)

(** C1, as stated, does not hold.  On [<think>partial], an opening delimiter
    without its closing one, [parseMessage] leaves the thinking text absent
    and returns the whole text, delimiter included, as the answer, where the
    claim wants the thinking text [partial] and an empty answer.  The
    streaming effect, on [Intro <think>partial], publishes [Intro partial] as
    thinking text, where the claim wants what follows the delimiter only.
    And on a text without delimiters, [Hello], the streaming effect, in its
    initial thinking phase, publishes the text as thinking text and no answer,
    where the claim wants no thinking text and the answer [Hello]. *)
Lemma open_delimiter_alone_not_parsed :
  hasOpen (js "<think>partial") /\
  ~ hasPair (js "<think>partial") /\
  parseMessage (js "<think>partial")
  = {| parsedThinking := None; parsedContent := js "<think>partial" |} /\
  parseMessage (js "<think>partial")
  <> {| parsedThinking := Some (js "partial"); parsedContent := [] |} /\
  thinking
    (streamingState (chunkArrived 0 (js "Intro <think>partial") initialChat))
  = js "Intro partial" /\
  ~ hasOpen (js "Hello") /\
  thinking (streamingState (chunkArrived 0 (js "Hello") initialChat))
  = js "Hello" /\
  content (streamingState (chunkArrived 0 (js "Hello") initialChat)) = [].
Proof.
  repeat split; try reflexivity.
  - exists [], (js "partial"); reflexivity.
  - rewrite hasPair_iff; intros [m H]; vm_compute in H; discriminate.
  - vm_compute; discriminate.
  - rewrite hasOpen_iff; vm_compute; discriminate.
Qed.

(** C1, amended.  When the text has a delimiter pair, [parseMessage] and the
    streaming effect give the interior of the first pair, trimmed, as thinking
    text and the text without that pair, trimmed, as answer.  When it has
    none, [parseMessage] gives no thinking text and the trimmed text as
    answer, also when an opening delimiter stands alone.  The opening
    delimiter that stands alone is handled by the streaming effect only, which
    publishes the text without its first opening delimiter, trimmed, as
    thinking text, and an empty answer; a text without opening delimiter is
    published trimmed, as thinking text in the thinking phase and as answer
    otherwise. *)
Theorem parseMessage_and_effect_views (raw : jsstring) :
  (forall pre mid post, firstPair raw pre mid post ->
     parseMessage raw
     = {| parsedThinking := Some (trim mid);
          parsedContent := trim (pre ++ post) |} /\
     forall now c,
       streamingState (chunkArrived now raw c)
       = {| thinking := trim mid; content := trim (pre ++ post);
            isThinking := false; sources := sources (streamingState c) |}) /\
  (hasPair raw -> exists pre mid post, firstPair raw pre mid post) /\
  (~ hasPair raw ->
     parseMessage raw
     = {| parsedThinking := None; parsedContent := trim raw |}) /\
  (~ hasPair raw -> forall pre rest, firstOpen raw pre rest ->
     forall now c,
       streamingState (chunkArrived now raw c)
       = {| thinking := trim (pre ++ rest); content := [];
            isThinking := true; sources := sources (streamingState c) |}) /\
  (~ hasOpen raw -> forall now c,
     streamingState (chunkArrived now raw c)
     = if isThinking (streamingState c)
       then {| thinking := trim raw; content := content (streamingState c);
               isThinking := true; sources := sources (streamingState c) |}
       else {| thinking := thinking (streamingState c); content := trim raw;
               isThinking := false; sources := sources (streamingState c) |}).
Proof.
  repeat apply conj.
  - intros pre mid post H; split; [now apply parseMessage_pair|].
    intros now c; rewrite chunkArrived_publish; unfold publish.
    apply firstPair_iff in H.
    unfold showMatch, replaceThinkRegex; now rewrite H.
  - apply hasPair_firstPair.
  - apply parseMessage_noPair.
  - intros Hn pre rest Ho now c.
    rewrite chunkArrived_publish; unfold publish.
    destruct (thinkRegex_exec raw) as [m|] eqn:E;
      [exfalso; apply Hn, hasPair_iff; eauto|].
    apply firstOpen_iff in Ho.
    unfold includes, showOpenThinking, replaceFirst; now rewrite Ho.
  - intros Hn now c.
    rewrite chunkArrived_publish; unfold publish.
    destruct (thinkRegex_exec raw) as [m|] eqn:E.
    + exfalso; apply Hn.
      assert (P : hasPair raw) by (apply hasPair_iff; eauto).
      destruct P as (a & m' & b & ->); now exists a, (m' ++ closeTag ++ b).
    + destruct (includes raw openTag) eqn:I;
        [exfalso; now apply Hn, hasOpen_iff|].
      unfold showAsThinking, showAsContent.
      now destruct (isThinking (streamingState c)) eqn:T.
Qed.

(** The round trips of the specification, by the amended C1: the pair is
    split by [parseMessage]; the opening delimiter alone is not. *)
Lemma parseMessage_and_effect_views_witness :
  parseMessage (js "<think>A</think>B")
  = {| parsedThinking := Some (js "A"); parsedContent := js "B" |} /\
  parseMessage (js "<think>partial")
  = {| parsedThinking := None; parsedContent := js "<think>partial" |} /\
  thinking
    (streamingState
       (chunkArrived 0 (js "<think>partial") initialChat))
  = js "partial" /\
  streamingState (chunkArrived 0 (js "Hello") initialChat)
  = {| thinking := js "Hello"; content := []; isThinking := true;
       sources := [] |}.
Proof.
  assert (P : firstPair (js "<think>A</think>B") [] (js "A") (js "B"))
    by (apply firstPair_iff; reflexivity).
  assert (Q : ~ hasPair (js "<think>partial"))
    by (rewrite hasPair_iff; intros [m H]; vm_compute in H; discriminate).
  assert (O : firstOpen (js "<think>partial") [] (js "partial"))
    by (apply firstOpen_iff; reflexivity).
  assert (T : ~ hasOpen (js "Hello"))
    by (rewrite hasOpen_iff; vm_compute; discriminate).
  split; [|split; [|split]].
  - exact (proj1 (proj1 (parseMessage_and_effect_views _) _ _ _ P)).
  - exact (proj1 (proj2 (proj2 (parseMessage_and_effect_views _))) Q).
  - rewrite (proj1 (proj2 (proj2 (proj2 (parseMessage_and_effect_views _))))
               Q _ _ O).
    reflexivity.
  - exact (proj2 (proj2 (proj2 (proj2 (parseMessage_and_effect_views _))))
             T 0%N initialChat).
Defined.

(** C9.  When the text has more than one delimiter pair, only the first one
    counts: the thinking text is the interior of the first pair (trimmed, as
    everywhere), the answer is the text around that pair (trimmed), and every
    delimiter, opening or closing, that occurs after the first pair occurs in
    the answer, at its place. *)
Theorem first_pair_only (raw pre mid post : jsstring) :
  firstPair raw pre mid post ->
  parsedThinking (parseMessage raw) = Some (trim mid) /\
  parsedContent (parseMessage raw) = trim (pre ++ post) /\
  forall tag x y,
    tag = openTag \/ tag = closeTag -> post = x ++ tag ++ y ->
    exists l x' y' r,
      parsedContent (parseMessage raw) = x' ++ tag ++ y' /\
      pre ++ x = l ++ x' /\ y = y' ++ r /\
      allOf isWhiteSpace l /\ allOf isWhiteSpace r.
Proof.
  intros H; rewrite (parseMessage_pair raw pre mid post H); simpl.
  repeat split.
  intros tag x y Ht ->.
  apply trim_keeps_occurrence.
  - destruct Ht as [-> | ->];
      [apply openTag_solidEnds | apply closeTag_solidEnds].
  - now rewrite <- app_assoc.
Qed.

Lemma first_pair_only_witness :
  firstPair (js "<think>A</think>B<think>C</think>D")
    [] (js "A") (js "B<think>C</think>D") /\
  parsedThinking (parseMessage (js "<think>A</think>B<think>C</think>D"))
  = Some (js "A") /\
  parsedContent (parseMessage (js "<think>A</think>B<think>C</think>D"))
  = js "B<think>C</think>D".
Proof.
  assert (P : firstPair (js "<think>A</think>B<think>C</think>D")
                [] (js "A") (js "B<think>C</think>D"))
    by (apply firstPair_iff; reflexivity).
  split; [exact P|].
  destruct (first_pair_only _ _ _ _ P) as (H1 & H2 & _).
  split; [exact H1 | exact H2].
Defined.

(** ** Scenario 3 *)

(** C2.  A turn has been submitted, so the buffers are empty and the phase
    is thinking.  The accumulated text is then [<th], then [<think>Eval],
    then [<think>Evaluating sources</think>] followed by the start of the
    answer, and later by more of it.  The phase is thinking after the first
    two chunks and answering from the third on; from the third on the thinking
    text is [Evaluating sources] and the answer is the text after the closing
    delimiter, trimmed: it grows with the chunks.  For the answer of the
    scenario, a heading, a line break and three dots, the answer published
    is that very text. *)
Theorem scenario_3_phases (c : Chat) (t1 t2 t3 t4 : N) (rest more : jsstring) :
  let c0 := setStreamingState clearStreaming c in
  let c1 := chunkArrived t1 (js "<th") c0 in
  let c2 := chunkArrived t2 (js "<think>Eval") c1 in
  let c3 :=
    chunkArrived t3 (js "<think>Evaluating sources</think>" ++ rest) c2 in
  let c4 :=
    chunkArrived t4 (js "<think>Evaluating sources</think>" ++ rest ++ more)
      c3 in
  (thinking (streamingState c0) = [] /\ content (streamingState c0) = [] /\
   isThinking (streamingState c0) = true) /\
  isThinking (streamingState c1) = true /\
  isThinking (streamingState c2) = true /\
  isThinking (streamingState c3) = false /\
  isThinking (streamingState c4) = false /\
  thinking (streamingState c3) = js "Evaluating sources" /\
  thinking (streamingState c4) = js "Evaluating sources" /\
  content (streamingState c3) = trim rest /\
  content (streamingState c4) = trim (rest ++ more) /\
  content
    (streamingState
       (chunkArrived t3
          (js "<think>Evaluating sources</think>## Overview"
           ++ [newline] ++ js "...") c2))
  = js "## Overview" ++ [newline] ++ js "...".
Proof.
  intros c0 c1 c2 c3 c4.
  assert (E3 : forall tail,
             thinkRegex_exec (js "<think>Evaluating sources</think>" ++ tail)
             = Some {| textBefore := []; captured := js "Evaluating sources";
                       textAfter := tail |})
    by (intros tail; reflexivity).
  assert (H3 : forall tail prev,
             publish (js "<think>Evaluating sources</think>" ++ tail) prev
             = {| thinking := js "Evaluating sources"; content := trim tail;
                  isThinking := false; sources := sources prev |}).
  { intros tail prev; unfold publish, showMatch, replaceThinkRegex.
    rewrite E3; reflexivity. }
  assert (S3 : streamingState c3
               = {| thinking := js "Evaluating sources"; content := trim rest;
                    isThinking := false;
                    sources := sources (streamingState c2) |})
    by (unfold c3; now rewrite chunkArrived_publish, H3).
  assert (S4 : streamingState c4
               = {| thinking := js "Evaluating sources";
                    content := trim (rest ++ more);
                    isThinking := false;
                    sources := sources (streamingState c3) |})
    by (unfold c4; now rewrite chunkArrived_publish, H3).
  assert (S1 : isThinking (streamingState c1) = true)
    by (unfold c1; rewrite chunkArrived_publish; reflexivity).
  assert (S2 : isThinking (streamingState c2) = true)
    by (unfold c2; rewrite chunkArrived_publish; reflexivity).
  rewrite S3, S4; repeat split; try assumption.
  rewrite chunkArrived_publish.
  exact (f_equal content
           (H3 (js "## Overview" ++ [newline] ++ js "...") (streamingState c2))).
Qed.

(** ** The reformulated query *)

(** C3, as stated, does not hold: the clean-up of the example is not
    [foo bar baz], and a quote is left in it. *)
Lemma normalization_example_keeps_a_quote :
  cleanQuery normalizationExample <> js "foo bar baz" /\
  In quote (cleanQuery normalizationExample).
Proof.
  split; [vm_compute; discriminate|].
  vm_compute; do 8 right; now left.
Qed.

(** C3, amended.  The clean-up of the example is [foo bar], a space, a
    double quote and [baz]: the tags are removed and the line break becomes a
    space, but quotes are removed at the two ends of the text only, so the
    quote after [baz], which the trailing spaces follow, goes, and the quote
    before [baz] stays.  No tag delimiter and no line break is left. *)
Theorem cleanQuery_example :
  cleanQuery normalizationExample = js "foo bar " ++ [quote] ++ js "baz" /\
  ~ In lessThan (cleanQuery normalizationExample) /\
  ~ In greaterThan (cleanQuery normalizationExample) /\
  ~ In newline (cleanQuery normalizationExample).
Proof.
  assert (E : cleanQuery normalizationExample
              = js "foo bar " ++ [quote] ++ js "baz") by reflexivity.
  rewrite E; split; [reflexivity|].
  repeat split; vm_compute; intuition discriminate.
Qed.

(** The fallback to the question is decided on the text as it was received:
    it is taken when that text is blank, and only then. *)
Lemma selectSearchQuery_received
  (fetch : list Message.t -> Completion ChatResponse) (ms : list Message.t)
  (currentInput : jsstring) (reader : BodyStream) (received : jsstring) :
  Nat.ltb 1 (List.length ms) = true ->
  fetch (reformulationRequest ms currentInput)
  = Normal {| chatOk := true; chatBody := Some reader |} ->
  readAll [] reader = Normal received ->
  selectSearchQuery fetch ms currentInput
  = Normal (if truthy (trim received) then cleanQuery received
            else currentInput).
Proof.
  intros Hm Hf Hr; unfold selectSearchQuery.
  rewrite Hm, Hf; simpl; rewrite Hr.
  now destruct (truthy (trim received)).
Qed.

(** C4 fails on the code: the text received is not blank, so the fallback is
    not taken, but its clean-up is empty, and the search is made with the
    empty query instead of the question. *)
Theorem empty_clean_query_is_searched :
  readAll [] (Chunk [quote] (Chunk [quote] Done)) = Normal [quote; quote] /\
  cleanQuery [quote; quote] = [] /\
  selectSearchQuery emptyQuotes followUp (js "and its population?")
  = Normal [] /\
  selectSearchQuery emptyQuotes followUp (js "and its population?")
  <> Normal (js "and its population?").
Proof.
  repeat split; vm_compute; discriminate.
Qed.

(** ** The result stream *)

Section InsertionFacts.
Context {A : Type} (comparefn : A -> A -> Q).

Lemma insertSorted_perm (x : A) (l : list A) :
  Permutation (x :: l) (insertSorted comparefn x l).
Proof.
  induction l as [|y l IH]; simpl; [reflexivity|].
  destruct (Qle_bool (comparefn x y) 0); [reflexivity|].
  rewrite perm_swap; now constructor.
Qed.

Lemma arraySort_perm (l : list A) : Permutation l (arraySort comparefn l).
Proof.
  induction l as [|x l IH]; simpl; [reflexivity|].
  rewrite <- insertSorted_perm; now constructor.
Qed.

(** An element is moved behind those only that the comparison puts strictly
    before it; a filter that never keeps two such elements does not see the
    move. *)
Lemma insertSorted_filter (keep : A -> bool) (x : A) (l : list A) :
  (forall a b, keep a = true -> keep b = true -> Qle_bool (comparefn a b) 0 = true) ->
  filter keep (insertSorted comparefn x l) = filter keep (x :: l).
Proof.
  intros H; induction l as [|y l IH]; [reflexivity|].
  cbn [insertSorted].
  destruct (Qle_bool (comparefn x y) 0) eqn:E; [reflexivity|].
  cbn [filter] in *; rewrite IH.
  destruct (keep x) eqn:Kx, (keep y) eqn:Ky; try reflexivity.
  rewrite (H x y Kx Ky) in E; discriminate.
Qed.

Lemma arraySort_filter (keep : A -> bool) (l : list A) :
  (forall a b, keep a = true -> keep b = true -> Qle_bool (comparefn a b) 0 = true) ->
  filter keep (arraySort comparefn l) = filter keep l.
Proof.
  intros H; induction l as [|x l IH]; [reflexivity|].
  cbn [arraySort fold_right]; fold (arraySort comparefn l).
  rewrite (insertSorted_filter keep x _ H); cbn [filter]; now rewrite IH.
Qed.

End InsertionFacts.

Lemma byScoreDescending_le (a b : SearchResult.t) :
  Qle_bool (byScoreDescending a b) 0 = true <-> scoreDescends a b.
Proof.
  unfold byScoreDescending, scoreDescends; rewrite Qle_bool_iff.
  split; intros H; lra.
Qed.

Lemma insertSorted_descends (x : SearchResult.t) (l : list SearchResult.t) :
  StronglySorted scoreDescends l ->
  StronglySorted scoreDescends (insertSorted byScoreDescending x l).
Proof.
  induction 1 as [|y l Hl IH Hy]; simpl; [repeat constructor|].
  destruct (Qle_bool (byScoreDescending x y) 0) eqn:E.
  - apply byScoreDescending_le in E.
    constructor; [now constructor|].
    constructor; [exact E|].
    eapply Forall_impl; [|exact Hy].
    unfold scoreDescends in *; intros z Hz; lra.
  - constructor; [exact IH|].
    apply (Permutation_Forall (insertSorted_perm byScoreDescending x l)).
    constructor; [|exact Hy].
    assert (N : ~ scoreDescends x y)
      by (intros K; apply byScoreDescending_le in K; congruence).
    unfold scoreDescends in *; lra.
Qed.

Lemma arraySort_descends (l : list SearchResult.t) :
  StronglySorted scoreDescends (arraySort byScoreDescending l).
Proof.
  induction l as [|x l IH]; simpl; [constructor|].
  now apply insertSorted_descends.
Qed.

Lemma produced_createResultStream (l : list SearchResult.t) :
  produced (createResultStream l) = arraySort byScoreDescending l.
Proof.
  unfold createResultStream.
  induction (arraySort byScoreDescending l) as [|r s IH];
    simpl; [reflexivity|now f_equal].
Qed.

Lemma hasScore_refl (r : SearchResult.t) : hasScore (SearchResult.score r) r = true.
Proof. unfold hasScore; apply Qeq_bool_iff; reflexivity. Qed.

Lemma filter_hasScore_nil (r : SearchResult.t) (l : list SearchResult.t) :
  filter (hasScore (SearchResult.score r)) (r :: l) <> [].
Proof. simpl; now rewrite hasScore_refl. Qed.

(** Two sequences that descend by score and list the results of every score
    in the same order are the same sequence: the order that a stable sort by
    score gives does not depend on the sorting algorithm. *)
Lemma stable_descending_unique (l1 l2 : list SearchResult.t) :
  StronglySorted scoreDescends l1 -> StronglySorted scoreDescends l2 ->
  (forall v, filter (hasScore v) l1 = filter (hasScore v) l2) ->
  l1 = l2.
Proof.
  revert l2; induction l1 as [|x l1 IH]; intros [|y l2] S1 S2 H.
  - reflexivity.
  - exfalso; apply (filter_hasScore_nil y l2); now rewrite <- H.
  - exfalso; apply (filter_hasScore_nil x l1); now rewrite H.
  - apply StronglySorted_inv in S1 as [S1 F1], S2 as [S2 F2].
    assert (E : x = y).
    { pose proof (H (SearchResult.score x)) as Hx.
      pose proof (H (SearchResult.score y)) as Hy.
      simpl in Hx, Hy; rewrite hasScore_refl in Hx, Hy.
      destruct (hasScore (SearchResult.score x) y) eqn:Kxy;
        [now injection Hx|].
      destruct (hasScore (SearchResult.score y) x) eqn:Kyx;
        [now injection Hy|].
      exfalso.
      assert (Ix : In x l2).
      { apply (filter_In (hasScore (SearchResult.score x)) x l2).
        rewrite <- Hx; now left. }
      assert (Iy : In y l1).
      { apply (filter_In (hasScore (SearchResult.score y)) y l1).
        rewrite Hy; now left. }
      rewrite Forall_forall in F1, F2.
      pose proof (F1 y Iy) as A; pose proof (F2 x Ix) as B.
      unfold scoreDescends, hasScore in *.
      assert (Q : (SearchResult.score x == SearchResult.score y)%Q) by lra.
      apply Qeq_bool_iff in Q; congruence. }
    subst y; f_equal; apply IH; [assumption..|].
    intros v; specialize (H v); simpl in H.
    destruct (hasScore v x); [now injection H|exact H].
Qed.

(** So [arraySort], which sorts by insertion, computes what any stable sort
    with the comparison of [createResultStream] computes. *)
Lemma arraySort_determined (l sorted : list SearchResult.t) :
  StronglySorted scoreDescends sorted ->
  (forall v, filter (hasScore v) sorted = filter (hasScore v) l) ->
  sorted = arraySort byScoreDescending l.
Proof.
  intros S H; apply stable_descending_unique;
    [exact S|apply arraySort_descends|].
  intros v; rewrite H; symmetry; apply arraySort_filter.
  intros a b Ha Hb; apply byScoreDescending_le.
  unfold hasScore, scoreDescends in *.
  apply Qeq_bool_iff in Ha, Hb; lra.
Qed.

(** C5.  The sequence that the stream produces holds the results it was
    given, in an order that does not ascend by score, and the results of any
    given score come in the order they had in the list. *)
Theorem createResultStream_descending_stable (l : list SearchResult.t) :
  StronglySorted scoreDescends (produced (createResultStream l)) /\
  Permutation l (produced (createResultStream l)) /\
  forall v, filter (hasScore v) (produced (createResultStream l))
            = filter (hasScore v) l.
Proof.
  rewrite produced_createResultStream; repeat split.
  - apply arraySort_descends.
  - apply arraySort_perm.
  - intros v; apply arraySort_filter.
    intros a b Ha Hb; apply byScoreDescending_le.
    unfold hasScore, scoreDescends in *.
    apply Qeq_bool_iff in Ha, Hb; lra.
Qed.

(** ** [performSearch] *)

Lemma performSearch_thrown (fetch : jsstring -> Completion Response)
  (query : jsstring) (h : SearchHook) (e : Thrown) :
  fetch query = Throw e \/
  (exists response, fetch query = Normal response /\ json response = Throw e) ->
  performSearch fetch query h
  = ({| isSearching := false; searchResults := [];
        searchError := Some (messageOf e) |}, Normal []).
Proof.
  unfold performSearch, trySearch.
  intros [-> | (response & -> & J)]; [now destruct e|].
  rewrite J; destruct (negb (ok response)); now destruct e.
Qed.

Lemma performSearch_notOk (fetch : jsstring -> Completion Response)
  (query : jsstring) (h : SearchHook) (response : Response)
  (error : ResponseBody) :
  fetch query = Normal response -> ok response = false ->
  json response = Normal error ->
  performSearch fetch query h
  = ({| isSearching := false; searchResults := [];
        searchError := Some (orElse (details error) searchRequestFailed) |},
     Normal []).
Proof.
  unfold performSearch, trySearch; intros -> -> ->; reflexivity.
Qed.

Lemma performSearch_ok (fetch : jsstring -> Completion Response)
  (query : jsstring) (h : SearchHook) (response : Response)
  (data : ResponseBody) :
  fetch query = Normal response -> ok response = true ->
  json response = Normal data ->
  performSearch fetch query h
  = ({| isSearching := false; searchResults := orEmpty (results data);
        searchError := None |},
     Normal (createResultStream (orEmpty (results data)))).
Proof.
  unfold performSearch, trySearch; intros -> -> ->; reflexivity.
Qed.

Lemma performSearch_failed (fetch : jsstring -> Completion Response)
  (query : jsstring) (h : SearchHook) :
  searchFailed (fetch query) ->
  performSearch fetch query h
  = ({| isSearching := false; searchResults := [];
        searchError := Some (failureMessage (fetch query)) |}, Normal []).
Proof.
  unfold searchFailed, failureMessage; intros F.
  destruct (fetch query) as [response|e] eqn:E.
  - destruct (json response) as [error|e] eqn:J.
    + destruct F as [F | [e F]]; [|congruence].
      now apply (performSearch_notOk fetch query h response error).
    + apply performSearch_thrown; right; eauto.
  - apply performSearch_thrown; now left.
Qed.

(** C6, as stated, does not hold for the message.  A failed response whose
    body has a [details] member that is the empty string gets the message
    [Search request failed], not those details; and a rejected request gets
    the message of the error that was thrown, here [Failed to fetch], which
    is neither of the two fixed messages of the hook. *)
Lemma search_error_message_cases :
  searchError
    (fst (performSearch
            (fun _ => Normal {| ok := false;
                                json := Normal {| results := None;
                                                  details := Some [] |} |})
            (js "q") idleHook))
  = Some searchRequestFailed /\
  Some searchRequestFailed <> Some ([] : jsstring) /\
  searchError
    (fst (performSearch (fun _ => Throw (ErrorObject (js "Failed to fetch")))
            (js "q") idleHook))
  = Some (js "Failed to fetch") /\
  js "Failed to fetch" <> searchRequestFailed /\
  js "Failed to fetch" <> failedToPerformSearch.
Proof.
  repeat split; vm_compute; discriminate.
Qed.

(** C6, amended.  When the search fails, [performSearch] does not throw: it
    returns a stream that produces nothing, publishes an empty result list and
    is no longer searching.  The error message is: the [details] of the body
    of a failed response when they are present and not empty, and
    [Search request failed] when they are not; the message of the error
    thrown when the request is rejected or a body cannot be read, and
    [Failed to perform search] when what was thrown is not an error. *)
Theorem performSearch_failure (fetch : jsstring -> Completion Response)
  (query : jsstring) (h : SearchHook) :
  searchFailed (fetch query) ->
  (exists message,
     performSearch fetch query h
     = ({| isSearching := false; searchResults := [];
           searchError := Some message |}, Normal [])) /\
  (forall response error d,
     fetch query = Normal response -> json response = Normal error ->
     details error = Some d -> d <> [] ->
     searchError (fst (performSearch fetch query h)) = Some d) /\
  (forall response error,
     fetch query = Normal response -> json response = Normal error ->
     details error = None \/ details error = Some [] ->
     searchError (fst (performSearch fetch query h))
     = Some searchRequestFailed) /\
  (forall e,
     fetch query = Throw e \/
     (exists response,
        fetch query = Normal response /\ json response = Throw e) ->
     searchError (fst (performSearch fetch query h)) = Some (messageOf e)).
Proof.
  intros F; rewrite (performSearch_failed fetch query h F).
  unfold failureMessage; cbn [fst searchError].
  repeat apply conj.
  - now eexists.
  - intros response error d -> -> -> Hd; simpl; now destruct d.
  - intros response error -> -> [-> | ->]; reflexivity.
  - intros e [-> | (response & -> & ->)]; reflexivity.
Qed.

(** Scenario 4, by C6: the route answers with a failure whose details are
    [rate limited]. *)
Lemma performSearch_failure_witness :
  performSearch
    (fun _ => Normal {| ok := false;
                        json := Normal {| results := None;
                                          details := Some (js "rate limited") |} |})
    (js "capital of France") idleHook
  = ({| isSearching := false; searchResults := [];
        searchError := Some (js "rate limited") |}, Normal []).
Proof.
  set (fetch := fun _ : jsstring =>
         Normal {| ok := false;
                   json := Normal {| results := None;
                                     details := Some (js "rate limited") |} |}).
  assert (F : searchFailed (fetch (js "capital of France")))
    by (left; reflexivity).
  destruct (performSearch_failure fetch (js "capital of France") idleHook F)
    as ([message E] & D & _).
  specialize (D _ _ (js "rate limited") eq_refl eq_refl eq_refl).
  rewrite E in D |- *; simpl in D.
  injection D as ->; [reflexivity|discriminate].
Defined.

(** C10.  A successful response whose body has no [results] member, or a
    null one, makes [performSearch] publish the empty list and return a stream
    that produces nothing; nothing is thrown and no error is set. *)
Theorem performSearch_without_results
  (fetch : jsstring -> Completion Response) (query : jsstring)
  (h : SearchHook) (response : Response) (data : ResponseBody) :
  fetch query = Normal response -> ok response = true ->
  json response = Normal data -> results data = None ->
  performSearch fetch query h
  = ({| isSearching := false; searchResults := []; searchError := None |},
     Normal []).
Proof.
  intros E O J R.
  now rewrite (performSearch_ok fetch query h response data E O J), R.
Qed.

Lemma performSearch_without_results_witness :
  performSearch
    (fun _ => Normal {| ok := true;
                        json := Normal {| results := None; details := None |} |})
    (js "capital of France")
    {| isSearching := false; searchResults := [];
       searchError := Some (js "rate limited") |}
  = ({| isSearching := false; searchResults := []; searchError := None |},
     Normal []).
Proof.
  exact (performSearch_without_results
           (fun _ => Normal {| ok := true;
                               json := Normal {| results := None;
                                                 details := None |} |})
           (js "capital of France")
           {| isSearching := false; searchResults := [];
              searchError := Some (js "rate limited") |}
           _ _ eq_refl eq_refl eq_refl eq_refl).
Defined.

(** ** [handleSubmit] *)

Lemma sources_setHook (h : SearchHook) (c : Chat) :
  sources (streamingState (setHook h c)) = sources (streamingState c).
Proof. reflexivity. Qed.

Lemma sources_showFailure (c : Chat) :
  sources (streamingState (setStreamingState showFailure c))
  = sources (streamingState c).
Proof. reflexivity. Qed.

Lemma sources_turnSubmitted (c : Chat) :
  sources (streamingState (turnSubmitted c)) = sources (streamingState c).
Proof. reflexivity. Qed.

(** The search is made with the query that [selectSearchQuery] gives; when
    it fails, the loop over its stream does not run. *)
Lemma runTurn_failed_search (env : Collaborators) (currentInput : jsstring)
  (c : Chat) :
  (forall q, selectSearchQuery (fetchChat env) (messages c) currentInput
             = Normal q -> searchFailed (fetchSearch env q)) ->
  sources (streamingState (runTurn env currentInput c))
  = sources (streamingState c).
Proof.
  intros H; unfold runTurn.
  destruct (selectSearchQuery _ _ _) as [q|e]; [|reflexivity].
  rewrite (performSearch_failed (fetchSearch env) q (hook c) (H q eq_refl)).
  simpl; now destruct (originalHandleSubmit env).
Qed.

(** C7.  When the search of a turn fails, the sources of the streaming
    state after [handleSubmit] are the sources it had before: the reset of the
    turn keeps them, the loop over the empty stream does not run, and the
    update made when the submission throws keeps them too. *)
Theorem failed_search_keeps_sources (env : Collaborators) (c : Chat) :
  (forall q, selectSearchQuery (fetchChat env) (messages c) (input c)
             = Normal q -> searchFailed (fetchSearch env q)) ->
  sources (streamingState (handleSubmit env c)) = sources (streamingState c).
Proof.
  intros H; unfold handleSubmit.
  destruct (negb (truthy (trim (input c)))); [reflexivity|].
  rewrite runTurn_failed_search; [apply sources_turnSubmitted|exact H].
Qed.

Lemma failed_search_keeps_sources_witness :
  searchFailed (fetchSearch rateLimited (js "population of Paris")) /\
  sources (streamingState (handleSubmit rateLimited secondQuestion))
  = [parisResult] /\
  searchError (hook (handleSubmit rateLimited secondQuestion))
  = Some (js "rate limited").
Proof.
  split; [left; reflexivity|].
  split; [|reflexivity].
  apply (failed_search_keeps_sources rateLimited secondQuestion).
  intros q _; left; reflexivity.
Defined.

(** C8.  A submission with a question in the input goes through
    [turnSubmitted] before anything else, and in the state it leaves the
    thinking text and the answer are empty, the phase is thinking, and the
    sources are those of the state before. *)
Theorem turnSubmitted_keeps_sources (env : Collaborators) (c : Chat) :
  truthy (trim (input c)) = true ->
  handleSubmit env c = runTurn env (input c) (turnSubmitted c) /\
  thinking (streamingState (turnSubmitted c)) = [] /\
  content (streamingState (turnSubmitted c)) = [] /\
  isThinking (streamingState (turnSubmitted c)) = true /\
  sources (streamingState (turnSubmitted c)) = sources (streamingState c).
Proof.
  intros H; unfold handleSubmit; rewrite H; repeat split.
Qed.

Lemma turnSubmitted_keeps_sources_witness :
  truthy (trim (input secondQuestion)) = true /\
  streamingState (turnSubmitted secondQuestion)
  = {| thinking := []; content := []; isThinking := true;
       sources := [parisResult] |}.
Proof.
  split; [reflexivity|].
  destruct (turnSubmitted_keeps_sources rateLimited secondQuestion eq_refl)
    as (_ & T & C & I & S).
  destruct (streamingState (turnSubmitted secondQuestion)) as [t k i s].
  simpl in T, C, I, S; now subst.
Defined.

(** * Further properties *)

(** ** The stream of an answer *)

Lemma splitAtFirst_app (p s b a t : jsstring) :
  splitAtFirst p s = Some (b, a) ->
  splitAtFirst p (s ++ t) = Some (b, a ++ t).
Proof.
  intros H.
  pose proof (splitAtFirst_sound p s b a H) as Hs.
  apply splitAtFirst_unique.
  - now rewrite Hs, <- !app_assoc.
  - intros x y Hxy.
    destruct (Nat.le_gt_cases (List.length b) (List.length x)) as [L|L];
      [exact L|exfalso].
    rewrite app_assoc in Hxy.
    apply app_eq_app in Hxy as [l [[E _]|[E _]]].
    + rewrite <- app_assoc in E.
      pose proof (splitAtFirst_least p s b a H x l E); lia.
    + apply (f_equal (@List.length N)) in E.
      rewrite Hs, !length_app in E; lia.
Qed.

Lemma thinkRegex_exec_app (s t : jsstring) (m : ThinkMatch) :
  thinkRegex_exec s = Some m ->
  thinkRegex_exec (s ++ t)
  = Some {| textBefore := textBefore m; captured := captured m;
            textAfter := textAfter m ++ t |}.
Proof.
  rewrite !thinkRegex_exec_pairSplit; unfold pairSplit.
  destruct (splitAtFirst openTag s) as [[pre r]|] eqn:E; [|discriminate].
  destruct (splitAtFirst closeTag r) as [[mid post]|] eqn:F; [|discriminate].
  intros [= <-].
  rewrite (splitAtFirst_app openTag s pre r t E).
  now rewrite (splitAtFirst_app closeTag r mid post t F).
Qed.

Lemma publish_pair_app (raw pre mid post more : jsstring)
  (prev : StreamingState) :
  firstPair raw pre mid post ->
  publish (raw ++ more) prev
  = {| thinking := trim mid; content := trim (pre ++ post ++ more);
       isThinking := false; sources := sources prev |}.
Proof.
  intros H; apply firstPair_iff in H.
  unfold publish, showMatch, replaceThinkRegex.
  now rewrite (thinkRegex_exec_app raw more _ H).
Qed.

Lemma publish_noPair (raw : jsstring) (prev : StreamingState) :
  ~ hasPair raw -> isThinking prev = true ->
  publish raw prev
  = {| thinking := trim (replaceFirst raw openTag []);
       content := if includes raw openTag then [] else content prev;
       isThinking := true; sources := sources prev |}.
Proof.
  intros H T; unfold publish.
  destruct (thinkRegex_exec raw) as [m|] eqn:E;
    [exfalso; apply H, hasPair_iff; eauto|].
  unfold showOpenThinking, showAsThinking, includes, replaceFirst.
  rewrite T; now destruct (splitAtFirst openTag raw) as [[b a]|].
Qed.

(** Once the accumulated text holds a delimiter pair, every later chunk,
    which extends that text, publishes the same thinking text and the phase
    stays answering; the answer is the text around the pair, with what has
    been added, trimmed. *)
Theorem thinking_settles (raw pre mid post : jsstring) :
  firstPair raw pre mid post ->
  (forall now more c,
     streamingState (chunkArrived now (raw ++ more) c)
     = {| thinking := trim mid; content := trim (pre ++ post ++ more);
          isThinking := false; sources := sources (streamingState c) |}) /\
  (forall chunks c,
     chunks <> [] ->
     Forall (fun chunk => exists more, snd chunk = raw ++ more) chunks ->
     thinking (streamingState (chunksArrived chunks c)) = trim mid /\
     isThinking (streamingState (chunksArrived chunks c)) = false).
Proof.
  intros H.
  assert (One : forall now more c,
             streamingState (chunkArrived now (raw ++ more) c)
             = {| thinking := trim mid; content := trim (pre ++ post ++ more);
                  isThinking := false;
                  sources := sources (streamingState c) |})
    by (intros; rewrite chunkArrived_publish; now apply publish_pair_app).
  split; [exact One|].
  induction chunks as [|[now text] rest IH]; intros c Hne Hall;
    [contradiction|].
  apply Forall_cons_iff in Hall as [[more E] Hall]; simpl in E; subst text.
  cbn [chunksArrived].
  destruct rest as [|next rest'].
  - cbn [chunksArrived]; now rewrite One.
  - apply IH; [discriminate|exact Hall].
Qed.

Lemma thinking_settles_witness :
  firstPair (js "<think>A</think>B") [] (js "A") (js "B") /\
  streamingState
    (chunksArrived [(2%N, js "<think>A</think>B and C")]
       (chunkArrived 1 (js "<think>A</think>B") initialChat))
  = {| thinking := js "A"; content := js "B and C"; isThinking := false;
       sources := [] |}.
Proof.
  assert (P : firstPair (js "<think>A</think>B") [] (js "A") (js "B"))
    by (apply firstPair_iff; reflexivity).
  split; [exact P|].
  exact (proj1 (thinking_settles _ _ _ _ P) 2%N (js " and C")
           (chunkArrived 1 (js "<think>A</think>B") initialChat)).
Defined.

(** While no chunk has brought a complete pair, a stream that starts in the
    thinking phase with an empty answer stays there: no answer is shown, and
    the whole text, without its first opening delimiter, is shown as thinking
    text.  This is so for a text that never has a delimiter as well. *)
Theorem no_answer_before_the_pair (chunks : list (N * jsstring)) (c : Chat) :
  isThinking (streamingState c) = true ->
  content (streamingState c) = [] ->
  Forall (fun chunk => ~ hasPair (snd chunk)) chunks ->
  isThinking (streamingState (chunksArrived chunks c)) = true /\
  content (streamingState (chunksArrived chunks c)) = [] /\
  forall earlier now text,
    chunks = earlier ++ [(now, text)] ->
    thinking (streamingState (chunksArrived chunks c))
    = trim (replaceFirst text openTag []).
Proof.
  revert c; induction chunks as [|[now text] rest IH]; intros c T C Hall.
  - repeat split; try assumption.
    intros [|? ?] ? ? [=].
  - apply Forall_cons_iff in Hall as [Hn Hall]; simpl in Hn.
    cbn [chunksArrived].
    assert (S1 : streamingState (chunkArrived now text c)
                 = {| thinking := trim (replaceFirst text openTag []);
                      content := [];
                      isThinking := true;
                      sources := sources (streamingState c) |}).
    { rewrite chunkArrived_publish, (publish_noPair text _ Hn T), C.
      now destruct (includes text openTag). }
    destruct (IH (chunkArrived now text c)) as (I1 & I2 & I3);
      [now rewrite S1..|exact Hall|].
    repeat split; try assumption.
    intros earlier now' text' E.
    destruct earlier as [|e earlier].
    + injection E as -> -> ->; cbn [chunksArrived]; now rewrite S1.
    + injection E as _ E; exact (I3 earlier now' text' E).
Qed.

Lemma no_answer_before_the_pair_witness :
  let chunks :=
    [(1%N, js "The capital"); (2%N, js "The capital is Paris.")] in
  Forall (fun chunk : N * jsstring => ~ hasPair (snd chunk)) chunks /\
  isThinking (streamingState (chunksArrived chunks initialChat)) = true /\
  content (streamingState (chunksArrived chunks initialChat)) = [] /\
  thinking (streamingState (chunksArrived chunks initialChat))
  = js "The capital is Paris.".
Proof.
  intros chunks.
  assert (F : Forall (fun chunk : N * jsstring => ~ hasPair (snd chunk))
                chunks).
  { repeat constructor; simpl; rewrite hasPair_iff; intros [m H];
      vm_compute in H; discriminate. }
  destruct (no_answer_before_the_pair chunks initialChat eq_refl eq_refl F)
    as (I & C & T).
  split; [exact F|].
  split; [exact I|].
  split; [exact C|].
  exact (T [(1%N, js "The capital")] 2%N (js "The capital is Paris.")
           eq_refl).
Defined.

Lemma chunkArrived_frame (now : N) (text : jsstring) (c : Chat) :
  sources (streamingState (chunkArrived now text c))
  = sources (streamingState c) /\
  hook (chunkArrived now text c) = hook c /\
  input (chunkArrived now text c) = input c.
Proof.
  split.
  - rewrite chunkArrived_publish; unfold publish.
    destruct (thinkRegex_exec text); [reflexivity|].
    destruct (includes text openTag); [reflexivity|].
    now destruct (isThinking (streamingState c)).
  - unfold chunkArrived, streamingEffect.
    destruct (lastOf _) as [l|]; [|now split].
    destruct (Message.role l); try now split.
    destruct (thinkRegex_exec _); [now destruct (_ && _)|].
    destruct (includes _ _) eqn:I.
    + now destruct (_ && _).
    + destruct (_ && _); now destruct (isThinking _).
Qed.

(** The chunks of an answer change the thinking text, the answer and the
    phase only: the sources, the state of the search hook and the input are
    what they were before the stream. *)
Theorem chunks_keep_sources (chunks : list (N * jsstring)) (c : Chat) :
  sources (streamingState (chunksArrived chunks c))
  = sources (streamingState c) /\
  hook (chunksArrived chunks c) = hook c /\
  input (chunksArrived chunks c) = input c.
Proof.
  revert c; induction chunks as [|[now text] rest IH]; intros c;
    [repeat split|].
  cbn [chunksArrived].
  destruct (IH (chunkArrived now text c)) as (-> & -> & ->).
  apply chunkArrived_frame.
Qed.

(** ** The clean-up of the reformulated query *)

Lemma dropWhile_bare (f : N -> bool) (s : jsstring) :
  (forall c t, s = c :: t -> f c = false) -> dropWhile f s = s.
Proof.
  destruct s as [|c s]; intros H; [reflexivity|].
  simpl; now rewrite (H c s eq_refl).
Qed.

Lemma dropWhileEnd_bare (f : N -> bool) (s : jsstring) :
  (forall t c, s = t ++ [c] -> f c = false) -> dropWhileEnd f s = s.
Proof.
  intros H; unfold dropWhileEnd.
  rewrite dropWhile_bare; [apply rev_involutive|].
  intros c t E; apply (H (rev t) c).
  rewrite <- (rev_involutive s), E; reflexivity.
Qed.

Lemma trimBy_bareEnds (f : N -> bool) (s : jsstring) :
  bareEnds f (dropWhileEnd f (dropWhile f s)).
Proof.
  split.
  - intros c t E.
    destruct (dropWhileEnd_split f (dropWhile f s)) as (r & F & _).
    rewrite E in F; simpl in F.
    exact (dropWhile_head f s (t ++ r) c F).
  - intros t c E; exact (dropWhileEnd_last f (dropWhile f s) t c E).
Qed.

Lemma trimBy_fixed (f : N -> bool) (s : jsstring) :
  bareEnds f s -> dropWhileEnd f (dropWhile f s) = s.
Proof.
  intros [H1 H2]; rewrite (dropWhile_bare f s H1).
  now apply dropWhileEnd_bare.
Qed.

Lemma trimBy_split (f : N -> bool) (s : jsstring) :
  exists l r, s = l ++ dropWhileEnd f (dropWhile f s) ++ r.
Proof.
  destruct (dropWhile_split f s) as (l & E & _).
  destruct (dropWhileEnd_split f (dropWhile f s)) as (r & F & _).
  exists l, r; now rewrite <- F.
Qed.

Lemma removeTags_eq (s : jsstring) :
  removeTags s =
  match s with
  | [] => []
  | c :: s' =>
      if N.eqb c lessThan && existsb (N.eqb greaterThan) s'
      then removeTags (afterFirst greaterThan s')
      else c :: removeTags s'
  end.
Proof. destruct s; reflexivity. Qed.

Lemma afterFirst_suffix (c : N) (s : jsstring) :
  exists l, s = l ++ afterFirst c s /\
            (List.length (afterFirst c s) <= List.length s)%nat.
Proof.
  induction s as [|x s (l & E & L)]; simpl.
  - exists []; now split.
  - destruct (N.eqb x c).
    + exists [x]; split; [reflexivity|lia].
    + exists (x :: l); split; [simpl; now f_equal|lia].
Qed.

(** The facts on [removeTags] are proved by induction on the length of the
    text, since the scan resumes after the tag it has removed. *)
Lemma removeTags_ind (P : jsstring -> Prop) :
  P [] ->
  (forall c s,
     N.eqb c lessThan && existsb (N.eqb greaterThan) s = true ->
     P (afterFirst greaterThan s) -> P (c :: s)) ->
  (forall c s,
     N.eqb c lessThan && existsb (N.eqb greaterThan) s = false ->
     P s -> P (c :: s)) ->
  forall s, P s.
Proof.
  intros H0 H1 H2 s.
  assert (G : forall n s, (List.length s <= n)%nat -> P s).
  { induction n as [|n IH]; intros [|c t] L; simpl in L;
      try exact H0; try lia.
    destruct (N.eqb c lessThan && existsb (N.eqb greaterThan) t) eqn:E.
    - apply H1; [exact E|apply IH].
      destruct (afterFirst_suffix greaterThan t) as (_ & _ & K); lia.
    - apply H2; [exact E|apply IH; lia]. }
  exact (G (List.length s) s (le_n _)).
Qed.

Lemma removeTags_In (x : N) (s : jsstring) :
  In x (removeTags s) -> In x s.
Proof.
  induction s as [|c s E IH|c s E IH] using removeTags_ind;
    rewrite removeTags_eq; [easy|rewrite E|rewrite E].
  - intros H; right.
    destruct (afterFirst_suffix greaterThan s) as (l & K & _).
    rewrite K; apply in_or_app; right; now apply IH.
  - intros [-> | H]; [now left|right; now apply IH].
Qed.

Lemma removeTags_noTag (s : jsstring) : noTag (removeTags s).
Proof.
  induction s as [|c s E IH|c s E IH] using removeTags_ind;
    rewrite removeTags_eq; [|rewrite E; exact IH|rewrite E].
  - intros [|? ?] ? [=].
  - intros [|d a] b H; simpl in H; injection H as -> H.
    + subst b; intros I; apply removeTags_In in I.
      rewrite N.eqb_refl in E; simpl in E.
      assert (X : existsb (N.eqb greaterThan) s = true)
        by (apply existsb_exists; exists greaterThan; split;
            [exact I|apply N.eqb_refl]).
      congruence.
    + exact (IH a b H).
Qed.

Lemma removeTags_fixed (s : jsstring) : noTag s -> removeTags s = s.
Proof.
  induction s as [|c s IH]; intros H; [reflexivity|].
  rewrite removeTags_eq.
  assert (Hs : noTag s) by (intros a b E; apply (H (c :: a) b); now rewrite E).
  destruct (N.eqb c lessThan) eqn:C; simpl.
  - apply N.eqb_eq in C; subst c.
    destruct (existsb (N.eqb greaterThan) s) eqn:X.
    + exfalso; apply existsb_exists in X as (x & I & X).
      apply N.eqb_eq in X; subst x.
      exact (H [] s eq_refl I).
    + now rewrite IH.
  - now rewrite IH.
Qed.

Lemma noTag_segment (l u r : jsstring) : noTag (l ++ u ++ r) -> noTag u.
Proof.
  intros H a b -> I.
  apply (H (l ++ a) (b ++ r)).
  - now rewrite <- !app_assoc.
  - apply in_or_app; now left.
Qed.

Lemma newlinesToSpaces_unit (x c : N) :
  (if N.eqb x newline then space else x) = c ->
  c <> space -> x = c.
Proof. destruct (N.eqb x newline); congruence. Qed.

Lemma newlinesToSpaces_noTag (s : jsstring) :
  noTag s -> noTag (newlinesToSpaces s).
Proof.
  intros H a b E I; unfold newlinesToSpaces in E.
  apply map_eq_app in E as (s1 & s2 & -> & _ & E).
  destruct s2 as [|x s2]; [discriminate|].
  simpl in E; injection E as X <-.
  apply newlinesToSpaces_unit in X; [subst x|discriminate].
  apply in_map_iff in I as (y & Y & I).
  apply newlinesToSpaces_unit in Y; [subst y|discriminate].
  exact (H s1 s2 eq_refl I).
Qed.

Lemma newlinesToSpaces_no_newline (s : jsstring) :
  ~ In newline (newlinesToSpaces s).
Proof.
  intros I; apply in_map_iff in I as (y & Y & _).
  destruct (N.eqb y newline) eqn:E; [discriminate|].
  apply N.eqb_neq in E; congruence.
Qed.

Lemma newlinesToSpaces_fixed (s : jsstring) :
  ~ In newline s -> newlinesToSpaces s = s.
Proof.
  induction s as [|c s IH]; intros H; [reflexivity|]; simpl.
  destruct (N.eqb c newline) eqn:E.
  - apply N.eqb_eq in E; subst c; exfalso; apply H; now left.
  - rewrite IH; [reflexivity|]; intros I; apply H; now right.
Qed.

Lemma isQuoteOrSpace_newline (c : N) :
  isQuoteOrSpace c = false -> N.eqb c newline = false.
Proof.
  intros H; destruct (N.eqb c newline) eqn:E; [|reflexivity].
  apply N.eqb_eq in E; subst c; discriminate.
Qed.

Lemma isQuoteOrSpace_isWhiteSpace (c : N) :
  isQuoteOrSpace c = false -> isWhiteSpace c = false.
Proof. unfold isQuoteOrSpace; intros H; now apply orb_false_elim in H. Qed.

Lemma newlinesToSpaces_bareEnds (s : jsstring) :
  bareEnds isQuoteOrSpace s -> bareEnds isQuoteOrSpace (newlinesToSpaces s).
Proof.
  intros [H1 H2]; split.
  - intros c t E; destruct s as [|x s]; [discriminate|].
    simpl in E; injection E as <- _.
    pose proof (H1 x s eq_refl) as Hx.
    now rewrite (isQuoteOrSpace_newline x Hx).
  - intros t c E; unfold newlinesToSpaces in E.
    apply map_eq_app in E as (s1 & s2 & -> & _ & E).
    destruct s2 as [|x [|? ?]]; try discriminate.
    simpl in E; injection E as <-.
    pose proof (H2 s1 x eq_refl) as Hx.
    now rewrite (isQuoteOrSpace_newline x Hx).
Qed.

Lemma bareEnds_weaken (s : jsstring) :
  bareEnds isQuoteOrSpace s -> bareEnds isWhiteSpace s.
Proof.
  intros [H1 H2]; split; intros; apply isQuoteOrSpace_isWhiteSpace; eauto.
Qed.

(** The last [trim] of the clean-up finds nothing to remove. *)
Lemma cleanQuery_without_trim (s : jsstring) :
  cleanQuery s = newlinesToSpaces (removeOuterQuotes (removeTags s)).
Proof.
  unfold cleanQuery, trim; apply trimBy_fixed, bareEnds_weaken.
  apply newlinesToSpaces_bareEnds, trimBy_bareEnds.
Qed.

Lemma cleanQuery_noTag (s : jsstring) : noTag (cleanQuery s).
Proof.
  rewrite cleanQuery_without_trim.
  apply newlinesToSpaces_noTag; unfold removeOuterQuotes.
  destruct (trimBy_split isQuoteOrSpace (removeTags s)) as (l & r & E).
  apply (noTag_segment l _ r); rewrite <- E; apply removeTags_noTag.
Qed.

Lemma cleanQuery_bareEnds (s : jsstring) :
  bareEnds isQuoteOrSpace (cleanQuery s).
Proof.
  rewrite cleanQuery_without_trim.
  apply newlinesToSpaces_bareEnds, trimBy_bareEnds.
Qed.

(** Whatever the reformulation route has sent, the query made of it holds
    no tag (no [<] with a [>] after it) and no line break, and it neither
    starts nor ends with a double quote or white space. *)
Theorem cleanQuery_is_clean (s : jsstring) :
  noTag (cleanQuery s) /\
  ~ In newline (cleanQuery s) /\
  bareEnds isQuoteOrSpace (cleanQuery s).
Proof.
  split; [apply cleanQuery_noTag|].
  split; [|apply cleanQuery_bareEnds].
  rewrite cleanQuery_without_trim; apply newlinesToSpaces_no_newline.
Qed.

(** Cleaning a query that is clean changes nothing: the clean-up applied
    twice gives what it gives applied once. *)
Theorem cleanQuery_idempotent (s : jsstring) :
  cleanQuery (cleanQuery s) = cleanQuery s.
Proof.
  rewrite (cleanQuery_without_trim (cleanQuery s)).
  rewrite (removeTags_fixed _ (cleanQuery_noTag s)).
  unfold removeOuterQuotes.
  rewrite (trimBy_fixed isQuoteOrSpace _ (cleanQuery_bareEnds s)).
  apply newlinesToSpaces_fixed.
  rewrite cleanQuery_without_trim; apply newlinesToSpaces_no_newline.
Qed.

(** ** The query of a turn *)

(** The question itself is the search query, whatever the reformulation
    route would answer, on a first turn (at most one message so far), and, on
    a later turn, when the route answers with a failure status, or without a
    body, or with a text that is blank. *)
Theorem selectSearchQuery_question
  (fetch : list Message.t -> Completion ChatResponse) (ms : list Message.t)
  (currentInput : jsstring) :
  ((List.length ms <= 1)%nat ->
   selectSearchQuery fetch ms currentInput = Normal currentInput) /\
  (forall body,
     fetch (reformulationRequest ms currentInput)
     = Normal {| chatOk := false; chatBody := body |} ->
     selectSearchQuery fetch ms currentInput = Normal currentInput) /\
  (fetch (reformulationRequest ms currentInput)
   = Normal {| chatOk := true; chatBody := None |} ->
   selectSearchQuery fetch ms currentInput = Normal currentInput) /\
  (forall reader received,
     fetch (reformulationRequest ms currentInput)
     = Normal {| chatOk := true; chatBody := Some reader |} ->
     readAll [] reader = Normal received -> trim received = [] ->
     selectSearchQuery fetch ms currentInput = Normal currentInput).
Proof.
  unfold selectSearchQuery; repeat apply conj.
  - intros L; apply Nat.ltb_ge in L; now rewrite L.
  - intros body ->; now destruct (Nat.ltb 1 (List.length ms)).
  - intros ->; now destruct (Nat.ltb 1 (List.length ms)).
  - intros reader received -> R T; simpl; rewrite R, T.
    now destruct (Nat.ltb 1 (List.length ms)).
Qed.

Lemma selectSearchQuery_question_witness :
  selectSearchQuery emptyQuotes
    [ {| Message.role := user; Message.content := js "capital of France" |} ]
    (js "capital of France")
  = Normal (js "capital of France") /\
  selectSearchQuery
    (fun _ => Normal {| chatOk := true;
                        chatBody := Some (Chunk (js "  ") (Chunk [newline] Done)) |})
    followUp (js "and its population?")
  = Normal (js "and its population?").
Proof.
  split.
  - apply (proj1 (selectSearchQuery_question _ _ _)); simpl; lia.
  - apply (proj2 (proj2 (proj2 (selectSearchQuery_question _ _ _)))
             (Chunk (js "  ") (Chunk [newline] Done)) (js "  " ++ [newline]));
      reflexivity.
Defined.

(** ** The hook, whatever the route answers *)

(** [performSearch] never throws, whatever the request does; when it
    returns, the hook is no longer searching; and the state it leaves does not
    depend on the state it found: the results and the error of an earlier
    search are gone. *)
Theorem performSearch_starts_afresh
  (fetch : jsstring -> Completion Response) (query : jsstring)
  (h h' : SearchHook) :
  (exists stream, snd (performSearch fetch query h) = Normal stream) /\
  isSearching (fst (performSearch fetch query h)) = false /\
  performSearch fetch query h = performSearch fetch query h'.
Proof.
  unfold performSearch, trySearch.
  destruct (fetch query) as [response|e];
    [destruct (negb (ok response)), (json response) as [body|e]|];
    cbn; repeat split; eauto.
Qed.

(** A search that succeeds leaves no error, has published, as it returns,
    the results in the order of the body, and returns a stream that produces them all, by descending
    score, with a pause of 150 milliseconds after each: the stream of [n]
    results takes [150 * n] milliseconds. *)
Theorem performSearch_success
  (fetch : jsstring -> Completion Response) (query : jsstring)
  (h : SearchHook) (response : Response) (data : ResponseBody)
  (l : list SearchResult.t) :
  fetch query = Normal response -> ok response = true ->
  json response = Normal data -> results data = Some l ->
  exists stream,
    performSearch fetch query h
    = ({| isSearching := false; searchResults := l; searchError := None |},
       Normal stream) /\
    produced stream = arraySort byScoreDescending l /\
    Permutation l (produced stream) /\
    StronglySorted scoreDescends (produced stream) /\
    totalDelay stream = (150 * N.of_nat (List.length l))%N.
Proof.
  intros F O J R.
  exists (createResultStream l).
  rewrite (performSearch_ok fetch query h response data F O J), R.
  rewrite produced_createResultStream.
  repeat split.
  - apply arraySort_perm.
  - apply arraySort_descends.
  - unfold createResultStream.
    rewrite (Permutation_length (arraySort_perm byScoreDescending l)).
    induction (arraySort byScoreDescending l) as [|r s IH];
      [reflexivity|].
    cbn [flat_map app totalDelay List.length]; rewrite IH; lia.
Qed.

Lemma performSearch_success_witness :
  exists stream,
    performSearch
      (fun _ => Normal {| ok := true;
                          json := Normal {| results := Some [parisResult];
                                            details := None |} |})
      (js "capital of France") idleHook
    = ({| isSearching := false; searchResults := [parisResult];
          searchError := None |}, Normal stream) /\
    produced stream = [parisResult] /\
    totalDelay stream = 150%N.
Proof.
  destruct (performSearch_success
              (fun _ => Normal {| ok := true;
                                  json := Normal {| results := Some [parisResult];
                                                    details := None |} |})
              (js "capital of France") idleHook _ _ [parisResult]
              eq_refl eq_refl eq_refl eq_refl)
    as (stream & E & P & _ & _ & D).
  exists stream; repeat split; assumption.
Defined.

(** ** A whole submission *)

Lemma performSearch_returns (fetch : jsstring -> Completion Response)
  (query : jsstring) (h : SearchHook) :
  exists h' stream, performSearch fetch query h = (h', Normal stream).
Proof.
  unfold performSearch, trySearch.
  destruct (fetch query) as [response|e];
    [destruct (negb (ok response)), (json response) as [body|e]|];
    cbn; eauto.
Qed.

Lemma collectSources_streamingState (acc stream : list SearchResult.t)
  (c : Chat) :
  streamingState (collectSources acc stream c)
  = match stream with
    | [] => streamingState c
    | _ :: _ =>
        {| thinking := thinking (streamingState c);
           content := content (streamingState c);
           isThinking := isThinking (streamingState c);
           sources := acc ++ stream |}
    end.
Proof.
  revert acc c; induction stream as [|r rest IH]; intros acc c;
    [reflexivity|].
  cbn [collectSources]; rewrite IH.
  destruct rest as [|r' rest']; cbn; [reflexivity|].
  now rewrite <- app_assoc.
Qed.

Lemma collectSources_rest (acc stream : list SearchResult.t) (c : Chat) :
  hook (collectSources acc stream c) = hook c /\
  input (collectSources acc stream c) = input c.
Proof.
  revert acc c; induction stream as [|r rest IH]; intros acc c;
    [now split|].
  cbn [collectSources]; now rewrite !(proj1 (IH _ _)), !(proj2 (IH _ _)).
Qed.

(** The sources after a submission whose search succeeds.  When the search
    brings results, they replace the sources of the turn before, in the order
    of descending score; when it brings none, the sources of the turn before
    stay. *)
Theorem handleSubmit_sources (env : Collaborators) (c : Chat) (q : jsstring)
  (response : Response) (data : ResponseBody) :
  truthy (trim (input c)) = true ->
  selectSearchQuery (fetchChat env) (messages c) (input c) = Normal q ->
  fetchSearch env q = Normal response -> ok response = true ->
  json response = Normal data ->
  sources (streamingState (handleSubmit env c))
  = match orEmpty (results data) with
    | [] => sources (streamingState c)
    | _ :: _ => arraySort byScoreDescending (orEmpty (results data))
    end.
Proof.
  intros T Q F O J; unfold handleSubmit, runTurn; rewrite T; cbn [negb].
  change (messages (turnSubmitted c)) with (messages c); rewrite Q.
  change (hook (turnSubmitted c)) with (hook c).
  rewrite (performSearch_ok (fetchSearch env) q (hook c) response data F O J).
  set (c3 := setHook _ (turnSubmitted c)).
  assert (S : sources (streamingState
                         (collectSources []
                            (produced (createResultStream (orEmpty (results data))))
                            c3))
              = match orEmpty (results data) with
                | [] => sources (streamingState c)
                | _ :: _ => arraySort byScoreDescending (orEmpty (results data))
                end).
  { rewrite collectSources_streamingState, produced_createResultStream.
    pose proof (arraySort_perm byScoreDescending (orEmpty (results data))) as P.
    destruct (orEmpty (results data)) as [|r l] eqn:E; [reflexivity|].
    destruct (arraySort byScoreDescending (r :: l)) as [|r' l'] eqn:A;
      [apply Permutation_sym, Permutation_nil in P; discriminate|].
    reflexivity. }
  now destruct (originalHandleSubmit env).
Qed.

Lemma handleSubmit_sources_witness :
  sources (streamingState (handleSubmit twoResults secondQuestion))
  = [parisResult; franceResult].
Proof.
  exact (handleSubmit_sources twoResults secondQuestion
           (js "population of Paris") _ _
           eq_refl eq_refl eq_refl eq_refl eq_refl).
Defined.



(** ** The search, from the provider to the hook *)


(** ** The chat route *)

Lemma lastOf_removelast {A : Type} (l : list A) (x : A) :
  lastOf l = Some x -> l = removelast l ++ [x].
Proof.
  induction l as [|a l IH]; [discriminate|].
  destruct l as [|b l]; [now intros [= ->]|].
  intros H; change (removelast (a :: b :: l)) with (a :: removelast (b :: l)).
  simpl; f_equal; now apply IH.
Qed.

Lemma removelast_snoc {A : Type} (l : list A) (x : A) :
  removelast (l ++ [x]) = l.
Proof.
  induction l as [|a l IH]; [reflexivity|].
  simpl; rewrite IH; now destruct (l ++ [x]) eqn:E; [destruct l|].
Qed.

Lemma toLLMMessage_not_system (m : Message.t) (t : jsstring) :
  toLLMMessage m <> SystemMessage t.
Proof. unfold toLLMMessage; now destruct (Message.role m). Qed.

Lemma occursIn_here (p b : jsstring) : occursIn p (p ++ b).
Proof. now exists [], b. Qed.

Lemma occursIn_after (p s a : jsstring) : occursIn p s -> occursIn p (a ++ s).
Proof. intros (x & y & ->); exists (a ++ x), y; now rewrite <- app_assoc. Qed.

Lemma occursIn_before (p s b : jsstring) : occursIn p s -> occursIn p (s ++ b).
Proof.
  intros (x & y & ->); exists x, (y ++ b); now rewrite <- !app_assoc.
Qed.

Lemma endsWith_after (s p a : jsstring) : endsWith s p -> endsWith (a ++ s) p.
Proof. intros (x & ->); exists (a ++ x); now rewrite <- app_assoc. Qed.

Lemma endsWith_occursIn (p s t : jsstring) :
  occursIn p t -> endsWith s t -> occursIn p s.
Proof. intros H (a & ->); now apply occursIn_after. Qed.

Section ChatRouteFacts.
Variable showNumber : Q -> jsstring.
Variable reformulationLLM : list LLMMessage -> Completion jsstring.

Lemma describeResult_mentions (index : nat) (r : SearchResult.t) :
  occursIn (SearchResult.title r) (describeResult showNumber index r) /\
  occursIn (SearchResult.url r) (describeResult showNumber index r) /\
  occursIn (SearchResult.content r) (describeResult showNumber index r).
Proof.
  unfold describeResult; repeat split.
  - do 4 apply occursIn_after; apply occursIn_here.
  - do 7 apply occursIn_after; apply occursIn_here.
  - do 13 apply occursIn_after; apply occursIn_here.
Qed.

Lemma join_mentions (p : jsstring) (index : nat) (l : list SearchResult.t)
  (r : SearchResult.t) :
  In r l ->
  (forall i, occursIn p (describeResult showNumber i r)) ->
  occursIn p (join [newline] (mapFrom index (describeResult showNumber) l)).
Proof.
  intros I H; revert index; induction l as [|x l IH]; intros index;
    [contradiction|].
  cbn [mapFrom join].
  destruct I as [-> | I].
  - destruct (mapFrom (S index) (describeResult showNumber) l);
      [apply H|apply occursIn_before, H].
  - specialize (IH I (S index)).
    destruct (mapFrom (S index) (describeResult showNumber) l) eqn:E;
      [destruct l; [contradiction|discriminate]|].
    now do 2 apply occursIn_after.
Qed.

Lemma searchContextOf_mentions (l : list SearchResult.t) (r : SearchResult.t) :
  In r l ->
  occursIn (SearchResult.title r) (searchContextOf showNumber (Some l)) /\
  occursIn (SearchResult.url r) (searchContextOf showNumber (Some l)) /\
  occursIn (SearchResult.content r) (searchContextOf showNumber (Some l)).
Proof.
  intros I; destruct l as [|x l]; [contradiction|].
  unfold searchContextOf.
  repeat split; do 3 apply occursIn_after;
    apply (join_mentions _ 0 (x :: l) r I);
    intros i; apply (describeResult_mentions i r).
Qed.

Lemma chatRoute_streams (messages0 : list Message.t)
  (searchResults0 : option (list SearchResult.t)) (prompt : list LLMMessage) :
  chatRoute showNumber reformulationLLM messages0 searchResults0
  = StreamOf prompt ->
  exists lastMessage searchQuery,
    lastOf messages0 = Some lastMessage /\
    prompt
    = SystemMessage SYSTEM_PROMPT
      :: map toLLMMessage (removelast messages0)
      ++ [HumanMessage
            (userMessageOf (Message.content lastMessage)
               (queryContextOf (Nat.ltb 2 (List.length messages0))
                  (Message.content lastMessage) searchQuery)
               (searchContextOf showNumber searchResults0))].
Proof.
  unfold chatRoute.
  destruct (lastOf messages0) as [lastMessage|]; [|discriminate].
  destruct (if Nat.ltb 2 (List.length messages0) then _ else _)
    as [searchQuery|e]; [|discriminate].
  intros [= <-]; now exists lastMessage, searchQuery.
Qed.

End ChatRouteFacts.

(** The prompt that the route gives to the model has one message more than
    the request.  It starts with the system prompt of the route, which is its
    only system message: a message of the request that is not the user's,
    a system message too, is passed as a message of the model.  It ends with
    a human message that starts with the text of the last message of the
    request and ends with the search context. *)
Theorem chatRoute_prompt (showNumber : Q -> jsstring)
  (reformulationLLM : list LLMMessage -> Completion jsstring)
  (messages0 : list Message.t)
  (searchResults0 : option (list SearchResult.t)) (prompt : list LLMMessage) :
  chatRoute showNumber reformulationLLM messages0 searchResults0
  = StreamOf prompt ->
  List.length prompt = S (List.length messages0) /\
  exists history lastMessage tail,
    lastOf messages0 = Some lastMessage /\
    prompt = SystemMessage SYSTEM_PROMPT :: history
             ++ [HumanMessage (Message.content lastMessage ++ tail)] /\
    history = map toLLMMessage (removelast messages0) /\
    (forall m t, In m history -> m <> SystemMessage t) /\
    endsWith tail (searchContextOf showNumber searchResults0).
Proof.
  intros H.
  destruct (chatRoute_streams showNumber reformulationLLM _ _ _ H)
    as (lastMessage & searchQuery & L & ->).
  split.
  - pose proof (f_equal (@List.length _)
                  (lastOf_removelast messages0 lastMessage L)) as E.
    rewrite length_app in E; cbn [List.length] in E |- *.
    rewrite length_app, length_map; cbn [List.length]; lia.
  - exists (map toLLMMessage (removelast messages0)), lastMessage.
    eexists; split; [exact L|].
    split; [unfold userMessageOf; reflexivity|].
    split; [reflexivity|].
    split.
    + intros m t I; apply in_map_iff in I as (x & <- & _).
      apply toLLMMessage_not_system.
    + do 3 apply endsWith_after; now exists [].
Qed.

Lemma chatRoute_prompt_witness :
  exists prompt,
    chatRoute showFraction sameQuery secondTurn (Some [parisResult])
    = StreamOf prompt /\
    List.length prompt = 4%nat.
Proof.
  eexists; split; [reflexivity|].
  exact (proj1 (chatRoute_prompt showFraction sameQuery secondTurn
                  (Some [parisResult]) _ eq_refl)).
Defined.

(** The route answers with an error in two cases only: the request has no
    message, or it has more than two and the model that reformulates the
    question throws.  The error has the status 500 and the text
    [Failed to process chat]. *)
Theorem chatRoute_error (showNumber : Q -> jsstring)
  (reformulationLLM : list LLMMessage -> Completion jsstring)
  (messages0 : list Message.t)
  (searchResults0 : option (list SearchResult.t))
  (status : N) (error : jsstring) :
  chatRoute showNumber reformulationLLM messages0 searchResults0
  = ChatError status error <->
  status = 500%N /\ error = failedToProcessChat /\
  (messages0 = [] \/
   exists lastMessage e,
     (2 < List.length messages0)%nat /\
     lastOf messages0 = Some lastMessage /\
     reformulationLLM
       (routeReformulationRequest messages0 (Message.content lastMessage))
     = Throw e).
Proof.
  unfold chatRoute; split.
  - destruct (lastOf messages0) as [lastMessage|] eqn:L.
    + destruct (Nat.ltb 2 (List.length messages0)) eqn:C; [|discriminate].
      destruct (reformulationLLM _) as [q|e] eqn:R; [discriminate|].
      intros [= <- <-]; repeat split; right.
      exists lastMessage, e; apply Nat.ltb_lt in C; now repeat split.
    + intros [= <- <-]; repeat split; left.
      destruct messages0 as [|a l]; [reflexivity|exfalso].
      revert a L; induction l as [|b l IH]; intros a; [discriminate|].
      exact (IH b).
  - intros (-> & -> & [-> | (lastMessage & e & C & L & R)]); [reflexivity|].
    apply Nat.ltb_lt in C; now rewrite L, C, R.
Qed.

(** With at most two messages in the request, the route does not ask for a
    reformulation: its answer does not depend on the reformulating model, and
    the human message is the question, the instruction to use the search
    results, and the search context. *)
Theorem chatRoute_without_context (showNumber : Q -> jsstring)
  (llm1 llm2 : list LLMMessage -> Completion jsstring)
  (messages0 : list Message.t)
  (searchResults0 : option (list SearchResult.t)) :
  (List.length messages0 <= 2)%nat ->
  chatRoute showNumber llm1 messages0 searchResults0
  = chatRoute showNumber llm2 messages0 searchResults0 /\
  forall lastMessage,
    lastOf messages0 = Some lastMessage ->
    chatRoute showNumber llm1 messages0 searchResults0
    = StreamOf
        (SystemMessage SYSTEM_PROMPT
         :: map toLLMMessage (removelast messages0)
         ++ [HumanMessage
               (userMessageOf (Message.content lastMessage) []
                  (searchContextOf showNumber searchResults0))]).
Proof.
  intros C; apply Nat.ltb_ge in C; unfold chatRoute; rewrite C.
  split; [reflexivity|]; now intros lastMessage ->.
Qed.

Lemma chatRoute_without_context_witness :
  chatRoute showFraction sameQuery
    [ {| Message.role := user; Message.content := js "capital of France" |} ]
    None
  = StreamOf
      [ SystemMessage SYSTEM_PROMPT;
        HumanMessage
          (js "capital of France" ++ [newline; newline]
           ++ js "Please use the following search results to answer the question. Remember to cite your sources:"
           ++ [newline; newline]
           ++ js "No search results available for this query.") ].
Proof.
  refine (proj2 (chatRoute_without_context showFraction sameQuery sameQuery
                   [ {| Message.role := user;
                        Message.content := js "capital of France" |} ]
                   None _) _ eq_refl).
  simpl; lia.
Defined.

(** The search context names every source: the title, the address and the
    content of each search result of the request occur in the human message
    that ends the prompt. *)
Theorem chatRoute_mentions_sources (showNumber : Q -> jsstring)
  (reformulationLLM : list LLMMessage -> Completion jsstring)
  (messages0 : list Message.t) (l : list SearchResult.t)
  (prompt : list LLMMessage) (r : SearchResult.t) :
  chatRoute showNumber reformulationLLM messages0 (Some l) = StreamOf prompt ->
  In r l ->
  exists text,
    lastOf prompt = Some (HumanMessage text) /\
    occursIn (SearchResult.title r) text /\
    occursIn (SearchResult.url r) text /\
    occursIn (SearchResult.content r) text.
Proof.
  intros H I.
  destruct (chatRoute_streams showNumber reformulationLLM _ _ _ H)
    as (lastMessage & searchQuery & L & ->).
  eexists; split.
  - change (SystemMessage SYSTEM_PROMPT :: ?x ++ ?y)
      with ((SystemMessage SYSTEM_PROMPT :: x) ++ y).
    apply lastOf_snoc.
  - destruct (searchContextOf_mentions showNumber l r I) as (T & U & C).
    unfold userMessageOf.
    repeat split; do 4 apply occursIn_after; assumption.
Qed.

Lemma chatRoute_mentions_sources_witness :
  exists prompt text,
    chatRoute showFraction sameQuery secondTurn
      (Some [franceResult; parisResult]) = StreamOf prompt /\
    lastOf prompt = Some (HumanMessage text) /\
    occursIn (js "https://example.org/paris") text.
Proof.
  destruct (chatRoute_mentions_sources showFraction sameQuery secondTurn
              [franceResult; parisResult] _ parisResult eq_refl)
    as (text & L & _ & U & _); [right; now left|].
  eexists; exists text; split; [reflexivity|].
  split; [exact L|exact U].
Defined.

Lemma toLLMMessage_client (m : Message.t) :
  toLLMMessage
    match Message.role m with
    | user => {| Message.role := user; Message.content := Message.content m |}
    | _ => {| Message.role := assistant;
              Message.content := Message.content m |}
    end
  = toLLMMessage m.
Proof. unfold toLLMMessage; now destruct (Message.role m). Qed.

(** The reformulation request of [handleSubmit], served by the chat route.
    The request has at least three messages, so the route takes it for a
    follow-up: it first asks its own reformulating model, and answers with an
    error if that throws.  The instruction of the client, sent in a system
    message, reaches the model as a message of the model, behind the system
    prompt of the route, and the human message, which starts with the request
    to reformulate, goes on to ask for an answer from search results, of which
    it says there are none. *)
Theorem reformulation_at_the_route (showNumber : Q -> jsstring)
  (reformulationLLM : list LLMMessage -> Completion jsstring)
  (ms : list Message.t) (currentInput : jsstring) :
  (1 < List.length ms)%nat ->
  let request := reformulationRequest ms currentInput in
  let question :=
    js "Given this context, reformulate this question into a single, clear search query: "
    ++ currentInput in
  chatRoute showNumber reformulationLLM request (Some [])
  = match reformulationLLM (routeReformulationRequest request question) with
    | Throw _ => ChatError 500 failedToProcessChat
    | Normal searchQuery =>
        StreamOf
          (SystemMessage SYSTEM_PROMPT
           :: AIMessage reformulationSystemPrompt
           :: map toLLMMessage (removelast ms)
           ++ [HumanMessage
                 (question ++ [newline] ++ js "Original question: "
                  ++ question ++ [newline]
                  ++ js "Reformulated search query: " ++ searchQuery
                  ++ [newline; newline; newline]
                  ++ js "Please use the following search results to answer the question. Remember to cite your sources:"
                  ++ [newline; newline]
                  ++ js "No search results available for this query.")])
    end.
Proof.
  intros C request question.
  set (final := {| Message.role := user; Message.content := question |}).
  set (prior := {| Message.role := system;
                   Message.content := reformulationSystemPrompt |}
                :: map (fun m =>
                          match Message.role m with
                          | user => {| Message.role := user;
                                       Message.content := Message.content m |}
                          | _ => {| Message.role := assistant;
                                    Message.content := Message.content m |}
                          end) (removelast ms)).
  assert (R : request = prior ++ [final]) by reflexivity.
  assert (Len : Nat.ltb 2 (List.length request) = true).
  { apply Nat.ltb_lt; rewrite R, length_app; unfold prior.
    cbn [List.length]; rewrite length_map.
    destruct ms as [|a [|b l]]; simpl in C; try lia.
    change (removelast (a :: b :: l)) with (a :: removelast (b :: l)).
    simpl; lia. }
  unfold chatRoute; rewrite Len.
  rewrite R at 1; rewrite lastOf_snoc.
  change (Message.content final) with question.
  destruct (reformulationLLM _) as [searchQuery|e]; [|reflexivity].
  rewrite R, removelast_snoc; unfold prior.
  cbn [map app]; rewrite map_map.
  rewrite (map_ext _ toLLMMessage toLLMMessage_client).
  unfold userMessageOf, queryContextOf, searchContextOf.
  cbn [toLLMMessage Message.role Message.content].
  do 3 f_equal. f_equal. f_equal.
  now rewrite <- !app_assoc.
Qed.

Lemma reformulation_at_the_route_witness :
  exists text,
    chatRoute showFraction sameQuery
      (reformulationRequest followUp (js "and its population?")) (Some [])
    = StreamOf
        [ SystemMessage SYSTEM_PROMPT;
          AIMessage reformulationSystemPrompt;
          HumanMessage (js "capital of France");
          HumanMessage text ].
Proof.
  pose proof (reformulation_at_the_route showFraction sameQuery followUp
                (js "and its population?")) as H.
  eexists; rewrite H; [reflexivity|simpl; lia].
Defined.

(** ** What is shown *)

(** The snippet of a result is its content when that has at most 200 code
    units, and its first 200 code units followed by three dots when it has
    more: it never has more than 203. *)
Theorem resultCard_snippet (result : SearchResult.t) :
  (List.length (cardSnippet (resultCard result)) <= 203)%nat /\
  ((List.length (SearchResult.content result) <= 200)%nat ->
   cardSnippet (resultCard result) = SearchResult.content result) /\
  ((200 < List.length (SearchResult.content result))%nat ->
   cardSnippet (resultCard result)
   = firstn 200 (SearchResult.content result) ++ js "..." /\
   List.length (cardSnippet (resultCard result)) = 203%nat).
Proof.
  unfold resultCard; cbn [cardSnippet].
  destruct (Nat.ltb 200 (List.length (SearchResult.content result))) eqn:E.
  - apply Nat.ltb_lt in E.
    assert (L : List.length (firstn 200 (SearchResult.content result)
                             ++ js "...") = 203%nat)
      by (rewrite length_app, length_firstn;
          change (List.length (js "...")) with 3%nat; lia).
    repeat split; try lia; try assumption.
  - apply Nat.ltb_ge in E; rewrite app_nil_r.
    rewrite firstn_all2 by exact E.
    repeat split; try lia.
Qed.

Lemma resultCard_snippet_witness :
  cardSnippet (resultCard parisResult) = js "Paris is the capital of France.".
Proof.
  apply (proj1 (proj2 (resultCard_snippet parisResult))).
  simpl; lia.
Defined.

(** The panel of the sources is shown exactly when the streaming state has
    sources, and it never shows the text for a search without results, which
    the component has for an empty list: that branch is not reached from the
    chat. *)
Theorem sourcesPanel_cases (c : Chat) :
  (sourcesPanel (streamingBlock c) = None
   <-> sources (streamingState c) = []) /\
  sourcesPanel (streamingBlock c) <> Some ShowSearching.
Proof.
  unfold streamingBlock; cbn [sourcesPanel].
  destruct (sources (streamingState c)) as [|r l]; split;
    try (split; congruence); try discriminate.
  unfold SearchResults.
  destruct (searchError (hook c)) as [e|];
    [destruct (truthy e)|]; destruct (isSearching (hook c)); discriminate.
Qed.

Lemma handleSubmit_hook (env : Collaborators) (c : Chat) (q : jsstring) :
  truthy (trim (input c)) = true ->
  selectSearchQuery (fetchChat env) (messages c) (input c) = Normal q ->
  hook (handleSubmit env c) = fst (performSearch (fetchSearch env) q (hook c)).
Proof.
  intros T Q; unfold handleSubmit, runTurn; rewrite T; cbn [negb].
  change (messages (turnSubmitted c)) with (messages c); rewrite Q.
  change (hook (turnSubmitted c)) with (hook c).
  destruct (performSearch_returns (fetchSearch env) q (hook c))
    as (h & stream & ->).
  destruct (collectSources_rest [] (produced stream)
              (setHook h (turnSubmitted c))) as [H _].
  now destruct (originalHandleSubmit env); cbn; rewrite H.
Qed.

(** What is shown of a failed search while the answer streams.  When the
    turn before has left sources, the panel of the sources shows the error
    message in their place; when there are no sources, there is no panel,
    and the error is not shown. *)
Theorem failed_search_display (env : Collaborators) (c : Chat) (q : jsstring)
  (chunks : list (N * jsstring)) :
  truthy (trim (input c)) = true ->
  selectSearchQuery (fetchChat env) (messages c) (input c) = Normal q ->
  searchFailed (fetchSearch env q) ->
  failureMessage (fetchSearch env q) <> [] ->
  sourcesPanel (streamingBlock (chunksArrived chunks (handleSubmit env c)))
  = match sources (streamingState c) with
    | [] => None
    | _ :: _ => Some (ShowError (failureMessage (fetchSearch env q)))
    end.
Proof.
  intros T Q F M.
  assert (Frame : forall c0,
             sources (streamingState (chunksArrived chunks c0))
             = sources (streamingState c0) /\
             hook (chunksArrived chunks c0) = hook c0).
  { induction chunks as [|[now text] rest IH]; intros c0; [now split|].
    cbn [chunksArrived].
    destruct (IH (chunkArrived now text c0)) as (-> & ->).
    destruct (chunkArrived_frame now text c0) as (S0 & H0 & _); now split. }
  destruct (Frame (handleSubmit env c)) as (S & H).
  unfold streamingBlock; cbn [sourcesPanel]; rewrite S, H.
  rewrite (handleSubmit_hook env c q T Q).
  rewrite (performSearch_failed (fetchSearch env) q (hook c) F); cbn [fst].
  assert (K : sources (streamingState (handleSubmit env c))
              = sources (streamingState c)).
  { unfold handleSubmit; rewrite T; cbn [negb].
    rewrite runTurn_failed_search; [reflexivity|].
    change (messages (turnSubmitted c)) with (messages c).
    intros q' Q'; rewrite Q in Q'; now injection Q' as <-. }
  rewrite K.
  destruct (sources (streamingState c)) as [|r l]; [reflexivity|].
  unfold SearchResults; cbn [searchError].
  destruct (failureMessage (fetchSearch env q)); [contradiction|reflexivity].
Qed.

Lemma failed_search_display_witness :
  sourcesPanel
    (streamingBlock
       (chunksArrived [(1%N, js "<think>No sources")]
          (handleSubmit rateLimited secondQuestion)))
  = Some (ShowError (js "rate limited")).
Proof.
  refine (failed_search_display rateLimited secondQuestion
            (js "population of Paris") [(1%N, js "<think>No sources")]
            eq_refl eq_refl _ _).
  - left; reflexivity.
  - vm_compute; discriminate.
Defined.

(** An answer while it streams and once it is a past message.  While its
    text streams, it is shown from the streaming state; when the next turn is
    submitted, or when it is no longer the last message, it is shown from
    [parseMessage].  With a delimiter pair the two views show the same
    thinking text and the same answer.  Without any opening delimiter, from
    the thinking phase, they do not: the streamed view shows the text in the
    thinking panel and no answer, and the later view shows it as the answer,
    without thinking panel. *)
Theorem views_of_an_answer (raw : jsstring) (now : N) (c : Chat)
  (isLastMessage : bool) :
  let message := {| Message.role := assistant; Message.content := raw |} in
  let streamed := chunkArrived now raw c in
  (forall pre mid post, firstPair raw pre mid post ->
     option_map snd (thinkingPanel (streamingBlock streamed))
     = whenNotEmpty (trim mid) /\
     answerPanel (streamingBlock streamed) = whenNotEmpty (trim (pre ++ post)) /\
     renderMessage (turnSubmitted streamed) isLastMessage message
     = ShowAssistant (whenNotEmpty (trim mid)) (trim (pre ++ post)) /\
     renderMessage streamed false message
     = ShowAssistant (whenNotEmpty (trim mid)) (trim (pre ++ post))) /\
  (~ hasOpen raw -> isThinking (streamingState c) = true ->
   content (streamingState c) = [] ->
     option_map snd (thinkingPanel (streamingBlock streamed))
     = whenNotEmpty (trim raw) /\
     answerPanel (streamingBlock streamed) = None /\
     renderMessage (turnSubmitted streamed) isLastMessage message
     = ShowAssistant None (trim raw) /\
     renderMessage streamed false message = ShowAssistant None (trim raw)).
Proof.
  intros message streamed; split.
  - intros pre mid post H.
    assert (S : streamingState streamed
                = {| thinking := trim mid; content := trim (pre ++ post);
                     isThinking := false;
                     sources := sources (streamingState c) |}).
    { unfold streamed; rewrite chunkArrived_publish.
      rewrite <- (app_nil_r raw), (publish_pair_app raw pre mid post [] _ H).
      now rewrite app_nil_r. }
    assert (R : forall c' b,
               b && (truthy (thinking (streamingState c'))
                     || truthy (content (streamingState c'))) = false ->
               renderMessage c' b message
               = ShowAssistant (whenNotEmpty (trim mid)) (trim (pre ++ post))).
    { intros c' b E; unfold renderMessage, message.
      cbn [Message.role Message.content]; rewrite E.
      now rewrite (parseMessage_pair raw pre mid post H). }
    unfold streamingBlock; cbn [thinkingPanel answerPanel]; rewrite S.
    cbn [thinking content]; unfold whenNotEmpty.
    repeat split.
    + now destruct (truthy (trim mid)).
    + apply R; cbn; apply andb_false_r.
    + now apply R.
  - intros Hn T C.
    assert (P : ~ hasPair raw).
    { intros (a & m & b & ->); apply Hn; now exists a, (m ++ closeTag ++ b). }
    assert (I : includes raw openTag = false).
    { destruct (includes raw openTag) eqn:I; [|reflexivity].
      exfalso; now apply Hn, hasOpen_iff. }
    assert (S : streamingState streamed
                = {| thinking := trim raw; content := [];
                     isThinking := true;
                     sources := sources (streamingState c) |}).
    { unfold streamed; rewrite chunkArrived_publish.
      rewrite (publish_noPair raw _ P T), I, C.
      unfold replaceFirst; unfold includes in I.
      now destruct (splitAtFirst openTag raw). }
    assert (R : forall c' b,
               b && (truthy (thinking (streamingState c'))
                     || truthy (content (streamingState c'))) = false ->
               renderMessage c' b message = ShowAssistant None (trim raw)).
    { intros c' b E; unfold renderMessage, message.
      cbn [Message.role Message.content]; rewrite E.
      now rewrite (parseMessage_noPair raw P). }
    unfold streamingBlock; cbn [thinkingPanel answerPanel]; rewrite S.
    cbn [thinking content truthy]; unfold whenNotEmpty.
    repeat split.
    + now destruct (truthy (trim raw)).
    + apply R; cbn; apply andb_false_r.
    + now apply R.
Qed.

Lemma views_of_an_answer_witness :
  let message := {| Message.role := assistant;
                    Message.content := js "The capital is Paris." |} in
  let streamed := chunkArrived 1 (js "The capital is Paris.") initialChat in
  thinkingPanel (streamingBlock streamed)
  = Some (js "Thinking", js "The capital is Paris.") /\
  answerPanel (streamingBlock streamed) = None /\
  renderMessage (turnSubmitted streamed) true message
  = ShowAssistant None (js "The capital is Paris.").
Proof.
  intros message streamed.
  assert (O : ~ hasOpen (js "The capital is Paris."))
    by (rewrite hasOpen_iff; vm_compute; discriminate).
  destruct (proj2 (views_of_an_answer (js "The capital is Paris.") 1
                     initialChat true) O eq_refl eq_refl)
    as (_ & A & R & _).
  split; [reflexivity|].
  split; [exact A|exact R].
Defined.

(** ** The thinking time *)

Lemma js_inj (a b : string) : js a = js b -> a = b.
Proof.
  unfold js; intros H.
  assert (K : list_ascii_of_string a = list_ascii_of_string b).
  { revert H; generalize (list_ascii_of_string a) (list_ascii_of_string b).
    induction l as [|x l IH]; intros [|y l'] H; simpl in H;
      try discriminate; [reflexivity|].
    injection H as X H.
    rewrite <- (ascii_N_embedding x), X, ascii_N_embedding.
    now rewrite (IH l' H). }
  rewrite <- (string_of_list_ascii_of_string a), K.
  apply string_of_list_ascii_of_string.
Qed.

Lemma decimal_inj (a b : nat) : decimal a = decimal b -> a = b.
Proof.
  unfold decimal; intros H; apply js_inj in H.
  assert (K : Some (Nat.to_uint a) = Some (Nat.to_uint b))
    by (rewrite <- !NilEmpty.usu; now rewrite H).
  injection K as K.
  rewrite <- (Unsigned.of_to a), K; apply Unsigned.of_to.
Qed.

Lemma decimal_digits (n : nat) : Forall (fun c => isDigit c = true) (decimal n).
Proof.
  unfold decimal; generalize (Nat.to_uint n) as d.
  induction d; simpl; constructor; try reflexivity; assumption.
Qed.

Lemma digits_then_space (d1 d2 x y : jsstring) :
  Forall (fun c => isDigit c = true) d1 ->
  Forall (fun c => isDigit c = true) d2 ->
  d1 ++ space :: x = d2 ++ space :: y -> d1 = d2 /\ x = y.
Proof.
  intros H1; revert d2; induction H1 as [|c d1 Hc H1 IH];
    intros d2 H2 E; destruct H2 as [|c' d2 Hc' H2]; simpl in E.
  - now injection E.
  - injection E as <- _; discriminate.
  - injection E as -> _; discriminate.
  - injection E as <- E; destruct (IH d2 H2 E) as [-> ->]; now split.
Qed.

(** Durations that differ are written differently. *)
Theorem formatThinkingTime_distinct (a b : nat) :
  a <> b -> formatThinkingTime a <> formatThinkingTime b.
Proof.
  intros Hab E; apply Hab; revert E.
  assert (Short : forall s, Nat.ltb s 60 = true ->
            formatThinkingTime s = decimal s ++ space :: js "seconds")
    by (intros s L; unfold formatThinkingTime; now rewrite L).
  assert (Long : forall s, Nat.ltb s 60 = false ->
            formatThinkingTime s
            = decimal (Nat.div s 60)
              ++ space :: js "minute"
              ++ (if Nat.ltb 1 (Nat.div s 60) then js "s" else [])
              ++ (if Nat.ltb 0 (Nat.modulo s 60)
                  then space :: decimal (Nat.modulo s 60) ++ js " seconds"
                  else [])).
  { intros s L; unfold formatThinkingTime; rewrite L; cbv zeta.
    destruct (Nat.ltb 0 (Nat.modulo s 60)); [reflexivity|].
    now rewrite app_nil_r. }
  destruct (Nat.ltb a 60) eqn:A, (Nat.ltb b 60) eqn:B.
  - rewrite (Short a A), (Short b B); intros H.
    apply digits_then_space in H as [H _]; try apply decimal_digits.
    now apply decimal_inj.
  - rewrite (Short a A), (Long b B); intros H.
    apply digits_then_space in H as [_ H]; try apply decimal_digits.
    discriminate.
  - rewrite (Long a A), (Short b B); intros H.
    apply digits_then_space in H as [_ H]; try apply decimal_digits.
    discriminate.
  - rewrite (Long a A), (Long b B); intros H.
    apply digits_then_space in H as [M H]; try apply decimal_digits.
    apply decimal_inj in M.
    apply app_inv_head in H; rewrite M in H; apply app_inv_head in H.
    assert (R : Nat.modulo a 60 = Nat.modulo b 60).
    { destruct (Nat.ltb 0 (Nat.modulo a 60)) eqn:Ra,
               (Nat.ltb 0 (Nat.modulo b 60)) eqn:Rb; try discriminate.
      - injection H as H; apply app_inv_tail in H; now apply decimal_inj.
      - apply Nat.ltb_ge in Ra, Rb; lia. }
    rewrite (Nat.div_mod_eq a 60), (Nat.div_mod_eq b 60); lia.
Qed.

Lemma formatThinkingTime_distinct_witness :
  formatThinkingTime 60 = js "1 minute" /\
  formatThinkingTime 61 = js "1 minute 1 seconds" /\
  formatThinkingTime 60 <> formatThinkingTime 61.
Proof.
  split; [reflexivity|].
  split; [reflexivity|].
  apply (formatThinkingTime_distinct 60 61); discriminate.
Defined.

(** ** The sources, result by result *)

Lemma last_cons_default {A : Type} (x : A) (l : list A) (d d' : A) :
  last (x :: l) d = last (x :: l) d'.
Proof.
  revert x; induction l as [|y l IH]; intros x; [reflexivity|].
  exact (IH y).
Qed.

Lemma collectSourcesTrace_last (acc stream : list SearchResult.t) (c : Chat) :
  collectSources acc stream c = last (collectSourcesTrace acc stream c) c.
Proof.
  revert acc c; induction stream as [|r rest IH]; intros acc c;
    [reflexivity|].
  cbn [collectSources collectSourcesTrace]; rewrite IH.
  destruct rest as [|r' rest']; [reflexivity|].
  cbn [collectSourcesTrace].
  match goal with
  | |- last (?x :: ?t) ?d = last (?a :: ?x :: ?t) ?d' =>
      change (last (a :: x :: t) d') with (last (x :: t) d')
  end.
  apply last_cons_default.
Qed.

(** The loop that receives the stream goes through one state for each
    result, and ends in the last of them.  In the state that follows the
    result of rank [k], the sources are the results received so far, in the
    order of the stream, and nothing else: the sources of the turn before are
    all gone when the first result arrives.  The thinking text, the answer and
    the phase are not touched. *)
Theorem sources_arrive_one_by_one (stream : list SearchResult.t) (c : Chat) :
  collectSources [] stream c = last (collectSourcesTrace [] stream c) c /\
  List.length (collectSourcesTrace [] stream c) = List.length stream /\
  forall k ck,
    nth_error (collectSourcesTrace [] stream c) k = Some ck ->
    streamingState ck
    = {| thinking := thinking (streamingState c);
         content := content (streamingState c);
         isThinking := isThinking (streamingState c);
         sources := firstn (S k) stream |}.
Proof.
  split; [apply collectSourcesTrace_last|].
  assert (G : forall acc c0,
            List.length (collectSourcesTrace acc stream c0)
            = List.length stream /\
            forall k ck,
              nth_error (collectSourcesTrace acc stream c0) k = Some ck ->
              streamingState ck
              = {| thinking := thinking (streamingState c0);
                   content := content (streamingState c0);
                   isThinking := isThinking (streamingState c0);
                   sources := acc ++ firstn (S k) stream |}).
  { induction stream as [|r rest IH]; intros acc c0.
    - split; [reflexivity|]; now intros [|k] ck.
    - cbn [collectSourcesTrace].
      destruct (IH (acc ++ [r])
                  (setStreamingState
                     (fun prev =>
                        {| thinking := thinking prev; content := content prev;
                           isThinking := isThinking prev;
                           sources := acc ++ [r] |}) c0)) as [L K].
      split; [cbn [List.length]; now rewrite L|].
      intros [|k] ck E; cbn [nth_error] in E.
      + injection E as <-; reflexivity.
      + rewrite (K k ck E); cbn [streamingState setStreamingState thinking content isThinking].
        f_equal; now rewrite <- app_assoc. }
  exact (G [] c).
Qed.

Lemma sources_arrive_one_by_one_witness :
  exists c1 c2,
    collectSourcesTrace [] [parisResult; franceResult] secondQuestion
    = [c1; c2] /\
    sources (streamingState c1) = [parisResult] /\
    sources (streamingState c2) = [parisResult; franceResult].
Proof.
  eexists; eexists; split; [reflexivity|].
  destruct (sources_arrive_one_by_one [parisResult; franceResult]
              secondQuestion) as (_ & _ & K).
  split.
  - exact (f_equal sources (K 0%nat _ eq_refl)).
  - exact (f_equal sources (K 1%nat _ eq_refl)).
Defined.
